(** * Mira: a shallow embedding of [_mira_.py]

    The development follows the Python source: the helper [strip_protocol],
    the class [WebScanner] with the directory scan [scan_directories] and
    the threaded subdomain scan [scan_subdomains], the class [DomainInfo],
    the output formatting and the external tool call of [WebsiteAnalyzer],
    and the target validation and mode dispatch of [main].

    - Python [str] values are [string]s; the library functions that the
      script calls ([str.replace], [str.strip], [re], [urllib.parse]) are
      modelled for ASCII text.
    - The instance field [self.results] is threaded explicitly through the
      methods.
    - The network ([requests.get]) and the parsed page ([BeautifulSoup]) are
      given by a [World], name resolution and WHOIS by a [Resolver].
    - The worker threads of the subdomain scan are a labelled interleaving
      step relation over the shared queue, lock and result list; each
      thread is at one of the program points of the closure [scan]. *)

From Stdlib Require Import Ascii String.
From stdpp Require Import gmap strings list sorting.

Local Open Scope string_scope.
Local Open Scope list_scope.

(** ** Python string operations used by the source *)

Module PyStr.

(** [s.startswith(p)] *)
Definition startswith (p s : string) : bool := String.prefix p s.

(** [s.endswith("/")]-style test for a one-character suffix [c]. *)
Fixpoint ends_with_char (c : ascii) (s : string) : bool :=
  match s with
  | "" => false
  | String a "" => Ascii.eqb a c
  | String _ s' => ends_with_char c s'
  end.

(** [c in s] for a character [c]. *)
Fixpoint contains_char (c : ascii) (s : string) : bool :=
  match s with
  | "" => false
  | String a s' => Ascii.eqb a c || contains_char c s'
  end.

(** [s.replace(old, new)] for a non-empty [old]: occurrences are replaced
    from left to right and do not overlap.  [skip] counts the characters of
    an occurrence that was just replaced and are still to be dropped. *)
Fixpoint replace_from (skip : nat) (old new s : string) : string :=
  match s with
  | "" => ""
  | String c s' =>
      match skip with
      | S k => replace_from k old new s'
      | O =>
          if startswith old s
          then new +:+ replace_from (String.length old - 1) old new s'
          else String c (replace_from 0 old new s')
      end
  end.

Definition replace (old new s : string) : string := replace_from 0 old new s.

(** Characters removed by [str.strip()] without argument (ASCII range):
    tab, line feed, vertical tab, form feed, carriage return, the four
    separators 0x1c-0x1f and the space. *)
Definition is_space (c : ascii) : bool :=
  let n := nat_of_ascii c in
  ((9 <=? n)%nat && (n <=? 13)%nat) || ((28 <=? n)%nat && (n <=? 32)%nat).

Fixpoint lstrip (s : string) : string :=
  match s with
  | "" => ""
  | String c s' => if is_space c then lstrip s' else s
  end.

Fixpoint rstrip (s : string) : string :=
  match s with
  | "" => ""
  | String c s' =>
      match rstrip s' with
      | "" => if is_space c then "" else String c ""
      | r => String c r
      end
  end.

(** [s.strip()] *)
Definition strip (s : string) : string := rstrip (lstrip s).

End PyStr.

(** ** Regular expressions: the fragment of Python's [re] that [main] uses *)

Module Re.

(** Character classes are boolean predicates on characters. *)
Inductive regex : Type :=
| Void
| Eps
| Cls (p : ascii -> bool)
| Cat (r1 r2 : regex)
| Alt (r1 r2 : regex)
| Star (r : regex).

Definition chr (c : ascii) : regex := Cls (Ascii.eqb c).

(** A literal string. *)
Fixpoint lit (s : string) : regex :=
  match s with
  | "" => Eps
  | String c s' => Cat (chr c) (lit s')
  end.

(** [r?], [r+] and [r{2,}] *)
Definition opt (r : regex) : regex := Alt r Eps.
Definition plus (r : regex) : regex := Cat r (Star r).
Definition at_least2 (r : regex) : regex := Cat r (plus r).

Fixpoint nullable (r : regex) : bool :=
  match r with
  | Void => false
  | Eps => true
  | Cls _ => false
  | Cat r1 r2 => nullable r1 && nullable r2
  | Alt r1 r2 => nullable r1 || nullable r2
  | Star _ => true
  end.

(** Brzozowski derivative of [r] by the character [c]. *)
Fixpoint deriv (c : ascii) (r : regex) : regex :=
  match r with
  | Void => Void
  | Eps => Void
  | Cls p => if p c then Eps else Void
  | Cat r1 r2 =>
      if nullable r1
      then Alt (Cat (deriv c r1) r2) (deriv c r2)
      else Cat (deriv c r1) r2
  | Alt r1 r2 => Alt (deriv c r1) (deriv c r2)
  | Star r1 => Cat (deriv c r1) (Star r1)
  end.

(** [fullmatch r s]: the whole of [s] is in the language of [r]. *)
Fixpoint fullmatch (r : regex) (s : string) : bool :=
  match s with
  | "" => nullable r
  | String c s' => fullmatch (deriv c r) s'
  end.

(** The language of a regular expression. *)
Inductive matches : regex -> string -> Prop :=
| m_eps : matches Eps ""
| m_cls p c : p c = true -> matches (Cls p) (String c "")
| m_cat r1 r2 s1 s2 :
    matches r1 s1 -> matches r2 s2 -> matches (Cat r1 r2) (s1 +:+ s2)
| m_alt_l r1 r2 s : matches r1 s -> matches (Alt r1 r2) s
| m_alt_r r1 r2 s : matches r2 s -> matches (Alt r1 r2) s
| m_star_nil r : matches (Star r) ""
| m_star_app r s1 s2 :
    matches r s1 -> matches (Star r) s2 -> matches (Star r) (s1 +:+ s2).

(** [s] without one final line feed, when it has one. *)
Fixpoint chop_newline (s : string) : option string :=
  match s with
  | "" => None
  | String c "" => if Ascii.eqb c "010" then Some "" else None
  | String c s' => String c <$> chop_newline s'
  end.

(** [re.compile("^" r "$").match(s)], returning [group(0)].  Without the
    MULTILINE flag [$] matches at the end of the string and also just
    before a line feed that ends the string. *)
Definition match_anchored (r : regex) (s : string) : option string :=
  if fullmatch r s then Some s
  else match chop_newline s with
       | Some s' => if fullmatch r s' then Some s' else None
       | None => None
       end.

End Re.

(** ** [urllib.parse]: [urlparse] and [urljoin] (CPython 3.11)

    For ASCII text [_checknetloc] does nothing and is left out. *)

Module PyUrl.
Import PyStr.

(** A call either returns or raises [ValueError] with a message. *)
Inductive result (A : Type) : Type :=
| Ok (a : A)
| ValueError (msg : string).
Arguments Ok {A} a.
Arguments ValueError {A} msg.

Definition bind {A B} (x : result A) (f : A -> result B) : result B :=
  match x with
  | Ok a => f a
  | ValueError msg => ValueError msg
  end.

(** The 6-tuple of [urlparse]. *)
Record ParseResult : Type := mkParse {
  scheme : string;
  netloc : string;
  path : string;
  params : string;
  query : string;
  fragment : string
}.

Definition mem (s : string) (l : list string) : bool :=
  existsb (String.eqb s) l.

Definition uses_relative : list string :=
  [""; "ftp"; "http"; "gopher"; "nntp"; "imap"; "wais"; "file"; "https";
   "shttp"; "mms"; "prospero"; "rtsp"; "rtspu"; "sftp"; "svn"; "svn+ssh";
   "ws"; "wss"].

Definition uses_netloc : list string :=
  [""; "ftp"; "http"; "gopher"; "nntp"; "telnet"; "imap"; "wais"; "file";
   "mms"; "https"; "shttp"; "snews"; "prospero"; "rtsp"; "rtspu"; "rsync";
   "svn"; "svn+ssh"; "sftp"; "nfs"; "git"; "git+ssh"; "ws"; "wss"].

Definition uses_params : list string :=
  [""; "ftp"; "hdl"; "prospero"; "http"; "imap"; "https"; "shttp"; "rtsp";
   "rtspu"; "sip"; "sips"; "mms"; "sftp"; "tel"].

Definition in_range (lo hi : nat) (c : ascii) : bool :=
  let n := nat_of_ascii c in (lo <=? n)%nat && (n <=? hi)%nat.

Definition is_ascii_alpha (c : ascii) : bool :=
  in_range 97 122 c || in_range 65 90 c.

(** [c in scheme_chars] *)
Definition scheme_char (c : ascii) : bool :=
  is_ascii_alpha c || in_range 48 57 c
  || Ascii.eqb c "+" || Ascii.eqb c "-" || Ascii.eqb c ".".

Fixpoint all_chars (p : ascii -> bool) (s : string) : bool :=
  match s with
  | "" => true
  | String c s' => p c && all_chars p s'
  end.

Definition lower_char (c : ascii) : ascii :=
  if in_range 65 90 c then ascii_of_nat (nat_of_ascii c + 32) else c.

Fixpoint lower (s : string) : string :=
  match s with
  | "" => ""
  | String c s' => String (lower_char c) (lower s')
  end.

(** [url.lstrip(_WHATWG_C0_CONTROL_OR_SPACE)] *)
Fixpoint lstrip_c0 (s : string) : string :=
  match s with
  | "" => ""
  | String c s' => if in_range 0 32 c then lstrip_c0 s' else s
  end.

(** Removal of the bytes of [_UNSAFE_URL_BYTES_TO_REMOVE]. *)
Fixpoint remove_unsafe (s : string) : string :=
  match s with
  | "" => ""
  | String c s' =>
      if Ascii.eqb c "009" || Ascii.eqb c "013" || Ascii.eqb c "010"
      then remove_unsafe s'
      else String c (remove_unsafe s')
  end.

(** [s.split(c, 1)]: the text before the first [c] and, when [c] occurs,
    the text after it. *)
Fixpoint split_once (c : ascii) (s : string) : string * option string :=
  match s with
  | "" => ("", None)
  | String a s' =>
      if Ascii.eqb a c then ("", Some s')
      else let '(pre, post) := split_once c s' in (String a pre, post)
  end.

(** [s.split("/")] *)
Fixpoint split_slash (s : string) : list string :=
  match s with
  | "" => [""]
  | String a s' =>
      if Ascii.eqb a "/" then "" :: split_slash s'
      else match split_slash s' with
           | seg :: segs => String a seg :: segs
           | [] => [String a ""]
           end
  end.

(** ["/".join(l)] *)
Fixpoint join_slash (l : list string) : string :=
  match l with
  | [] => ""
  | [x] => x
  | x :: rest => x +:+ "/" +:+ join_slash rest
  end.

Definition is_delim (c : ascii) : bool :=
  Ascii.eqb c "/" || Ascii.eqb c "?" || Ascii.eqb c "#".

(** [_splitnetloc(url, 2)], applied to the text after the leading [//]. *)
Fixpoint splitnetloc (s : string) : string * string :=
  match s with
  | "" => ("", "")
  | String c s' =>
      if is_delim c then ("", s)
      else let '(n, rest) := splitnetloc s' in (String c n, rest)
  end.

Section Urlsplit.
(** [_check_bracketed_netloc], which validates an IPv6 or IPvFuture
    literal through the [ipaddress] module: [Some msg] when it raises
    [ValueError(msg)].  Its definition is not part of the script and is
    taken as a parameter. *)
Variable check_bracketed_netloc : string -> option string.

(** The scheme test of [urlsplit]: the text before the first colon is a
    scheme when it is not empty, starts with a letter and consists of
    scheme characters. *)
Definition split_scheme (dflt url : string) : string * string :=
  match split_once ":" url with
  | (String c pre, Some rest) =>
      if is_ascii_alpha c && all_chars scheme_char (String c pre)
      then (lower (String c pre), rest)
      else (dflt, url)
  | _ => (dflt, url)
  end.

Definition check_netloc (n : string) : result unit :=
  let lb := contains_char "[" n in
  let rb := contains_char "]" n in
  if (lb && negb rb) || (rb && negb lb) then ValueError "Invalid IPv6 URL"
  else if lb && rb then
    match check_bracketed_netloc n with
    | Some msg => ValueError msg
    | None => Ok tt
    end
  else Ok tt.

(** [urlsplit(url, scheme)], with an empty [params] component. *)
Definition urlsplit (url dflt : string) : result ParseResult :=
  let url := remove_unsafe (lstrip_c0 url) in
  let '(sch, url) := split_scheme dflt url in
  bind (match url with
        | String "/" (String "/" rest) =>
            let '(n, url') := splitnetloc rest in
            bind (check_netloc n) (fun _ => Ok (n, url'))
        | _ => Ok ("", url)
        end)
    (fun '(n, url) =>
       let '(url, frag) := split_once "#" url in
       let '(url, qry) := split_once "?" url in
       Ok (mkParse sch n url "" (default "" qry) (default "" frag))).

(** [_splitparams(url)], called when [";" in url]. *)
Fixpoint last_segment (s : string) : string * string :=
  match s with
  | "" => ("", "")
  | String c s' =>
      if contains_char "/" s' then
        let '(d, l) := last_segment s' in (String c d, l)
      else if Ascii.eqb c "/" then ("/", s')
      else ("", s)
  end.

Definition splitparams (url : string) : string * string :=
  let '(d, l) := last_segment url in
  match split_once ";" l with
  | (a, Some b) => (d +:+ a, b)
  | (_, None) => (url, "")
  end.

(** [urlparse(url, scheme)] *)
Definition urlparse (url dflt : string) : result ParseResult :=
  bind (urlsplit url dflt) (fun r =>
    if mem (scheme r) uses_params && contains_char ";" (path r) then
      let '(p, prm) := splitparams (path r) in
      Ok (mkParse (scheme r) (netloc r) p prm (query r) (fragment r))
    else Ok r).

Definition nonempty (s : string) : bool := negb (String.eqb s "").

(** [urlunsplit((scheme, netloc, url, query, fragment))] *)
Definition urlunsplit (sch n url qry frag : string) : string :=
  let url :=
    if nonempty n
       || (nonempty sch && mem sch uses_netloc && negb (startswith "//" url))
    then "//" +:+ n +:+
         (if nonempty url && negb (startswith "/" url)
          then "/" +:+ url else url)
    else url in
  let url := if nonempty sch then sch +:+ ":" +:+ url else url in
  let url := if nonempty qry then url +:+ "?" +:+ qry else url in
  if nonempty frag then url +:+ "#" +:+ frag else url.

(** [urlunparse(components)] *)
Definition urlunparse (r : ParseResult) : string :=
  let url :=
    if nonempty (params r) then path r +:+ ";" +:+ params r else path r in
  urlunsplit (scheme r) (netloc r) url (query r) (fragment r).

(** [segments[1:-1] = filter(None, segments[1:-1])]: the empty strings
    strictly between the first and the last element are dropped. *)
Fixpoint drop_empty_but_last (l : list string) : list string :=
  match l with
  | [] => []
  | [x] => [x]
  | x :: rest =>
      if nonempty x then x :: drop_empty_but_last rest
      else drop_empty_but_last rest
  end.

Definition filter_middle (l : list string) : list string :=
  match l with
  | [] => []
  | x :: rest => x :: drop_empty_but_last rest
  end.

(** The loop over [segments] that removes dot segments. *)
Definition resolve_step (resolved : list string) (seg : string) : list string :=
  if String.eqb seg ".." then removelast resolved
  else if String.eqb seg "." then resolved
  else resolved ++ [seg].

Definition resolve (segments : list string) : list string :=
  let resolved := fold_left resolve_step segments [] in
  match List.last segments "" with
  | "." | ".." => resolved ++ [""]
  | _ => resolved
  end.

(** [urljoin(base, url)] *)
Definition urljoin (base url : string) : result string :=
  if negb (nonempty base) then Ok url
  else if negb (nonempty url) then Ok base
  else
    bind (urlparse base "") (fun b =>
    bind (urlparse url (scheme b)) (fun u =>
      if negb (String.eqb (scheme u) (scheme b))
         || negb (mem (scheme u) uses_relative)
      then Ok url
      else if mem (scheme u) uses_netloc && nonempty (netloc u)
      then Ok (urlunparse u)
      else
        let n := if mem (scheme u) uses_netloc then netloc b else netloc u in
        if negb (nonempty (path u)) && negb (nonempty (params u)) then
          Ok (urlunparse
                (mkParse (scheme u) n (path b) (params b)
                   (if nonempty (query u) then query u else query b)
                   (fragment u)))
        else
          let base_parts :=
            let bp := split_slash (path b) in
            if nonempty (List.last bp "") then removelast bp else bp in
          let segments :=
            if startswith "/" (path u) then split_slash (path u)
            else filter_middle (base_parts ++ split_slash (path u)) in
          let joined := join_slash (resolve segments) in
          Ok (urlunparse
                (mkParse (scheme u) n
                   (if nonempty joined then joined else "/")
                   (params u) (query u) (fragment u))))).

End Urlsplit.

End PyUrl.

(** ** The script *)

Module Mira.
Import PyStr Re.

(** [strip_protocol(url)], line 17 *)
Definition strip_protocol (url : string) : string :=
  replace "https://" "" (replace "http://" "" url).

(** *** The collaborators of the scanner

    [requests.get] is the only network operation of [WebScanner].  A call
    is described by its URL and its [timeout] argument ([None] when the
    argument is not passed, which makes [requests] wait without limit). *)
Record request : Type := mkRequest {
  req_url : string;
  req_timeout : option nat
}.

(** Exceptions by the [except] clauses that tell them apart:
    [requests.ConnectionError], the other subclasses of
    [requests.exceptions.RequestException] (such as [InvalidURL],
    [TooManyRedirects], [HTTPError]), and everything else. *)
Inductive exn_class : Type :=
| ConnectionError
| OtherRequestException
| OtherException.

Definition is_request_exception (c : exn_class) : bool :=
  match c with
  | ConnectionError | OtherRequestException => true
  | OtherException => false
  end.

(** The result of [requests.get]: a response or a raised exception with
    its message.  Of a response the script uses [raise_for_status()]
    ([http_error] is the message of the [HTTPError] it raises, if any) and
    the [<a>] tags that [BeautifulSoup(response.text, 'html.parser')] finds
    ([anchors] holds [link.get('href')] for each, in document order). *)
Inductive http_result : Type :=
| Response (http_error : option string) (anchors : list (option string))
| Raises (cls : exn_class) (msg : string).

(** The network answers a request the same way throughout one call of a
    scan method.  [check_bracketed_netloc] is the validation that
    [urllib.parse] applies to a bracketed IPv6 literal (see [PyUrl]). *)
Record World : Type := mkWorld {
  requests_get : request -> http_result;
  check_bracketed_netloc : string -> option string
}.

(** A method call returns a value or lets an exception escape. *)
Inductive outcome (A : Type) : Type :=
| Return (a : A)
| Raise (cls : exn_class) (msg : string).
Arguments Return {A} a.
Arguments Raise {A} cls msg.

(** *** [class WebScanner]

    The fields [q] and [list_lock] set by [__init__] are never read (the
    subdomain scan creates its own queue and lock) and are left out. *)
Record WebScanner : Type := mkScanner {
  target : string;
  Target : string;
  wordlist : string;
  results : list string
}.

(** [WebScanner.__init__], line 82 *)
Definition init (target wordlist : string) : WebScanner :=
  mkScanner target (strip_protocol target) wordlist [].

Definition set_results (self : WebScanner) (r : list string) : WebScanner :=
  mkScanner (target self) (Target self) (wordlist self) r.

Definition nl : string := String "010" "".

(** The loop of lines 103-113 over the anchors: the set [directories]
    after the loop, and the message of the exception that ended the loop
    early, if one did. *)
Fixpoint collect_directories (w : World) (tgt : string)
    (anchors : list (option string)) (directories : gset string)
    : gset string * option string :=
  match anchors with
  | [] => (directories, None)
  | None :: rest => collect_directories w tgt rest directories
  | Some url :: rest =>
      if PyUrl.nonempty url then
        match PyUrl.urljoin (check_bracketed_netloc w) tgt url with
        | PyUrl.ValueError msg => (directories, Some msg)
        | PyUrl.Ok full_url =>
            match PyUrl.urlparse (check_bracketed_netloc w) full_url "" with
            | PyUrl.ValueError msg => (directories, Some msg)
            | PyUrl.Ok parsed_url =>
                if ends_with_char "/" (PyUrl.path parsed_url)
                then collect_directories w tgt rest ({[full_url]} ∪ directories)
                else collect_directories w tgt rest directories
            end
        end
      else collect_directories w tgt rest directories
  end.

Definition access_error (tgt msg : string) : string :=
  "[!] Error accessing " +:+ tgt +:+ ": " +:+ msg.

Definition directory_banner (tgt : string) : string :=
  "Performing directory scan on " +:+ tgt +:+ "..." +:+ nl.

(** [WebScanner.scan_directories], line 90: the scanner after the call,
    the lines printed and the value returned.  A Python set is iterated in
    an order the language does not fix; [elements] stands for it. *)
Definition scan_directories (w : World) (self : WebScanner)
    : WebScanner * list string * outcome (list string) :=
  let banner := directory_banner (target self) in
  match requests_get w (mkRequest (target self) (Some 5)) with
  | Raises cls msg =>
      if is_request_exception cls
      then (self, [banner; access_error (target self) msg], Return (results self))
      else (self, [banner], Raise cls msg)
  | Response (Some msg) _ =>
      (self, [banner; access_error (target self) msg], Return (results self))
  | Response None anchors =>
      let '(directories, err) :=
        collect_directories w (target self) anchors ∅ in
      let printed :=
        match err with
        | Some msg => [banner; "An error occurred: " +:+ msg]
        | None => [banner]
        end in
      let self' := set_results self (results self ++ elements directories) in
      (self', printed, Return (results self'))
  end.

(** *** [queue.Queue] as the subdomain scan uses it *)
Record Queue : Type := mkQueue {
  items : list string;
  unfinished_tasks : nat
}.

Definition Queue_new : Queue := mkQueue [] 0.

(** [q.put(x)] *)
Definition put (q : Queue) (x : string) : Queue :=
  mkQueue (items q ++ [x]) (S (unfinished_tasks q)).

(** [q.get()]: [None] when the call blocks on an empty queue. *)
Definition get (q : Queue) : option (string * Queue) :=
  match items q with
  | [] => None
  | x :: rest => Some (x, mkQueue rest (unfinished_tasks q))
  end.

(** [q.task_done()]: [None] when it raises [ValueError] because it was
    called more often than there were items. *)
Definition task_done (q : Queue) : option Queue :=
  match unfinished_tasks q with
  | O => None
  | S n => Some (mkQueue (items q) n)
  end.

(** [q.join()] returns once the count of unfinished tasks is zero. *)
Definition join_returns (q : Queue) : bool :=
  Nat.eqb (unfinished_tasks q) 0.

(** *** [WebScanner.scan_subdomains], line 120 *)

(** The point a worker thread has reached in the closure [scan]. *)
Inductive pc : Type :=
| AtGet                      (* line 134, before or blocked in q.get() *)
| AtRequest (url : string)   (* line 137, before requests.get(url) *)
| AtLock (url : string)      (* line 141, waiting for list_lock *)
| AtAppend (url : string)    (* line 142, holding list_lock *)
| AtTaskDone                 (* line 144, before q.task_done() *)
| Dead.                      (* ended by an exception that left scan() *)

(** The state shared by the threads of one call. *)
Record pool : Type := mkPool {
  self : WebScanner;
  q : Queue;
  list_lock : bool;
  threads : list pc
}.

(** Line 135 *)
Definition probe_url (self : WebScanner) (subdomain : string) : string :=
  "http://" +:+ subdomain +:+ "." +:+ Target self.

(** Line 137: [requests.get(url)] *)
Definition probe_request (url : string) : request := mkRequest url None.

(** What a thread observes and does in one step. *)
Inductive label : Type :=
| LGet (i : nat) (subdomain : string)
| LRequest (i : nat) (r : request) (res : http_result)
| LAcquire (i : nat)
| LAppend (i : nat) (url : string)
| LTaskDone (i : nat)
| LTaskDoneError (i : nat).

(** Where [scan] goes on after [requests.get(url)]: the [else] branch
    after a response, line 144 after a caught [ConnectionError]; any other
    exception leaves the function and ends the thread. *)
Definition after_request (url : string) (res : http_result) : pc :=
  match res with
  | Response _ _ => AtLock url
  | Raises ConnectionError _ => AtTaskDone
  | Raises _ _ => Dead
  end.

Definition set_thread (st : pool) (i : nat) (p : pc) : pool :=
  mkPool (self st) (q st) (list_lock st) (<[i := p]> (threads st)).

(** One step of thread [i]; [None] when the thread is blocked, has ended
    or does not exist. *)
Definition scan_step (w : World) (i : nat) (st : pool)
    : option (label * pool) :=
  match threads st !! i with
  | Some AtGet =>
      match get (q st) with
      | Some (subdomain, q') =>
          Some (LGet i subdomain,
                mkPool (self st) q' (list_lock st)
                  (<[i := AtRequest (probe_url (self st) subdomain)]> (threads st)))
      | None => None
      end
  | Some (AtRequest url) =>
      let res := requests_get w (probe_request url) in
      Some (LRequest i (probe_request url) res,
            set_thread st i (after_request url res))
  | Some (AtLock url) =>
      if list_lock st then None
      else Some (LAcquire i,
                 mkPool (self st) (q st) true (<[i := AtAppend url]> (threads st)))
  | Some (AtAppend url) =>
      Some (LAppend i url,
            mkPool (set_results (self st) (results (self st) ++ [url]))
              (q st) false (<[i := AtTaskDone]> (threads st)))
  | Some AtTaskDone =>
      match task_done (q st) with
      | Some q' =>
          Some (LTaskDone i,
                mkPool (self st) q' (list_lock st) (<[i := AtGet]> (threads st)))
      | None => Some (LTaskDoneError i, set_thread st i Dead)
      end
  | Some Dead | None => None
  end.

(** Interleaving: any thread that can step may do so. *)
Definition step (w : World) (st : pool) (l : label) (st' : pool) : Prop :=
  exists i, scan_step w i st = Some (l, st').

(** Executions with their traces. *)
Inductive run (w : World) (st0 : pool) : list label -> pool -> Prop :=
| run_nil : run w st0 [] st0
| run_step tr st l st' :
    run w st0 tr st -> step w st l st' -> run w st0 (tr ++ [l]) st'.

(** The same, driven by a schedule that names the thread of each step. *)
Fixpoint exec (w : World) (sched : list nat) (st : pool)
    : option (list label * pool) :=
  match sched with
  | [] => Some ([], st)
  | i :: rest =>
      match scan_step w i st with
      | Some (l, st') =>
          match exec w rest st' with
          | Some (tr, st'') => Some (l :: tr, st'')
          | None => None
          end
      | None => None
      end
  end.

(** Lines 121-130 and 146-149: the results are emptied, every line of the
    wordlist file is stripped and queued, and [n] workers are started. *)
Definition start_pool (n : nat) (self : WebScanner) (lines : list string) : pool :=
  mkPool (set_results self [])
         (fold_left put (map strip lines) Queue_new)
         false
         (replicate n AtGet).

Definition worker_count : nat := 10.

Definition subdomain_banner (self : WebScanner) : string :=
  "Performing subdomain scan on " +:+ Target self +:+ "...".

(** The method up to [q.join()]: the line printed and the pool started.
    [file] is what [open(self.wordlist, 'r')] yields: the lines of the
    file, or [None] when the file cannot be opened and the exception
    leaves the method. *)
Definition scan_subdomains_start (self : WebScanner) (file : option (list string))
    : list string * option pool :=
  ([subdomain_banner self], start_pool worker_count self <$> file).

(** Lines 151-153: once [q.join()] returns, the method returns
    [self.results]. *)
Definition scan_subdomains_return (st : pool) : option (list string) :=
  if join_returns (q st) then Some (results (self st)) else None.

(** Trace observations. *)
Definition is_get (l : label) : bool :=
  match l with LGet _ _ => true | _ => false end.
Definition is_task_done (l : label) : bool :=
  match l with LTaskDone _ => true | _ => false end.
Definition gets (tr : list label) : nat := length (List.filter is_get tr).
Definition dones (tr : list label) : nat := length (List.filter is_task_done tr).
Definition requests_of (tr : list label) : list request :=
  omap (fun l => match l with LRequest _ r _ => Some r | _ => None end) tr.

(** *** [main]: target validation (lines 254-267) *)

Definition is_lower (c : ascii) : bool :=
  let n := nat_of_ascii c in (97 <=? n)%nat && (n <=? 122)%nat.
Definition is_upper (c : ascii) : bool :=
  let n := nat_of_ascii c in (65 <=? n)%nat && (n <=? 90)%nat.
Definition is_digit (c : ascii) : bool :=
  let n := nat_of_ascii c in (48 <=? n)%nat && (n <=? 57)%nat.

(** [[a-zA-Z]] *)
Definition alpha (c : ascii) : bool := is_lower c || is_upper c.
(** [[a-zA-Z0-9-]] *)
Definition label_char (c : ascii) : bool :=
  is_lower c || is_upper c || is_digit c || Ascii.eqb c "-".

(** [(https?://)?] *)
Definition scheme_re : regex :=
  opt (Cat (lit "http") (Cat (opt (chr "s")) (lit "://"))).
(** [(www\.)?] *)
Definition www_re : regex := opt (lit "www.").
(** [([a-zA-Z0-9-]+(\.[a-zA-Z]{2,})+)] *)
Definition domain_re : regex :=
  Cat (plus (Cls label_char)) (plus (Cat (chr ".") (at_least2 (Cls alpha)))).
(** The host part: groups 2 and 3. *)
Definition host_re : regex := Cat www_re domain_re.

(** [^(https?://)?(www\.)?([a-zA-Z0-9-]+(\.[a-zA-Z]{2,})+)$] *)
Definition pattern : regex := Cat scheme_re host_re.

Definition invalid_url_msg : string := "Invalid URL. Please enter a valid URL.".
Definition no_target_msg : string := "Please enter a target URL.".

(** The [if args.target: ... else: ...] block: [inl] carries the printed
    diagnostic of the branches that [return], [inr] the variable
    [target] with which the dispatch goes on. *)
Definition validate_target (arg : string) : string + string :=
  match arg with
  | "" => inl no_target_msg
  | _ =>
      match match_anchored pattern arg with
      | Some tgt =>
          if startswith "http" tgt then inr tgt
          else inr ("http://" +:+ tgt)
      | None => inl invalid_url_msg
      end
  end.

(** *** [main]: mode dispatch (lines 269-320) *)

Module Args.
(** The namespace returned by [parser.parse_args()]. *)
Record t : Type := mk {
  basic_info : bool;
  port_scan : bool;
  dir_scan : bool;
  sub_scan : bool;
  tech_scan : bool;
  target : string;
  ports : option string;
  wordlist : string
}.
End Args.

Inductive mode : Type := BasicInfo | PortScan | DirScan | SubScan | TechScan.

(** What [main] does, in order: a line printed by [main] itself, or the
    execution of the [try] block of one mode on the normalized target. *)
Inductive event : Type :=
| Print (line : string)
| Run (m : mode) (tgt : string).

Definition dispatch (a : Args.t) (tgt : string) : list event :=
  if Args.basic_info a then [Run BasicInfo tgt]
  else if Args.port_scan a then [Run PortScan tgt]
  else if Args.dir_scan a then [Run DirScan tgt]
  else if Args.sub_scan a then [Run SubScan tgt]
  else if Args.tech_scan a then [Run TechScan tgt]
  else [].

Definition main (a : Args.t) : list event :=
  match validate_target (Args.target a) with
  | inl msg => [Print msg]
  | inr tgt => dispatch a tgt
  end.

(** The modes executed in a run of [main]. *)
Definition modes_run (tr : list event) : list mode :=
  omap (fun e => match e with Run m _ => Some m | Print _ => None end) tr.

(** The flag of a mode, and the order in which the [if]/[elif] chain
    tests them. *)
Definition flag (a : Args.t) (m : mode) : bool :=
  match m with
  | BasicInfo => Args.basic_info a
  | PortScan => Args.port_scan a
  | DirScan => Args.dir_scan a
  | SubScan => Args.sub_scan a
  | TechScan => Args.tech_scan a
  end.

Definition priority : list mode :=
  [BasicInfo; PortScan; DirScan; SubScan; TechScan].

(** *** [class DomainInfo], line 21 *)

(** A lookup returns a value or raises an exception with a message. *)
Inductive tried (A : Type) : Type :=
| Got (a : A)
| Failed (msg : string).
Arguments Got {A} a.
Arguments Failed {A} msg.

(** The attributes of the object returned by [whois.whois] that the script
    reads, each as [str()] renders it in an f-string. *)
Record WhoisEntry : Type := mkWhois {
  domain_name : string;
  registrar : string;
  creation_date : string;
  expiration_date : string;
  updated_date : string;
  name_servers : string;
  status : string;
  emails : string;
  dnssec : string
}.

(** [socket.gethostbyname] and [whois.whois]. *)
Record Resolver : Type := mkResolver {
  gethostbyname : string -> tried string;
  whois_whois : string -> tried WhoisEntry
}.

Module DomainInfo.

(** An element of [self.whois_data]: a string or a dict, the dict with its
    items in insertion order. *)
Inductive item : Type :=
| Text (s : string)
| Info (d : list (string * string)).

Record t : Type := mk {
  target : string;
  whois_data : list item
}.

(** [DomainInfo.__init__] *)
Definition init (target : string) : t := mk target [].

Definition append (self : t) (it : item) : t :=
  mk (target self) (whois_data self ++ [it]).

Fixpoint drop (n : nat) (s : string) : string :=
  match n, s with
  | O, _ => s
  | S _, "" => ""
  | S k, String _ s' => drop k s'
  end.

(** [re.sub(r'^https?://', '', s)]: the pattern can only match at the
    start, where it removes ["http://"] or ["https://"]. *)
Definition sub_scheme (s : string) : string :=
  if startswith "http://" s then drop 7 s
  else if startswith "https://" s then drop 8 s
  else s.

(** [get_ip_address], line 26 *)
Definition get_ip_address (r : Resolver) (self : t) : t :=
  match gethostbyname r (sub_scheme (target self)) with
  | Got ip_address => append self (Text ("IP Address: " +:+ ip_address +:+ nl))
  | Failed e =>
      append self
        (Text ("IP Address: Not found" +:+ nl
               +:+ "An error occurred during IP lookup: " +:+ e +:+ nl))
  end.

(** [whois_lookup], line 35 *)
Definition whois_lookup (r : Resolver) (self : t) : t :=
  match whois_whois r (target self) with
  | Got w =>
      append self
        (Info [("Domain Name", domain_name w);
               ("Registrar", registrar w);
               ("Creation Date", creation_date w);
               ("Expiration Date", expiration_date w);
               ("Last Updated", updated_date w);
               ("DNS Servers", name_servers w);
               ("Status", status w);
               ("Emails", emails w);
               ("DNSSEC", dnssec w)])
  | Failed e => append self (Text ("An error occurred during WHOIS lookup: " +:+ e))
  end.

(** The entries that one element of [whois_data] adds to
    [formatted_data]. *)
Definition format_item (it : item) : list string :=
  match it with
  | Info d => map (fun kv => kv.1 +:+ ": " +:+ kv.2) d
  | Text s => [strip s]
  end.

(** [format_output], line 53.  The elements are strings and dicts only, so
    nothing in its [try] block raises. *)
Definition format_output (self : t) : string :=
  String.concat nl (flat_map format_item (whois_data self)).

(** [get_domain_info], line 66: the object after the call and the report. *)
Definition get_domain_info (r : Resolver) (self : t) : t * string :=
  let self' := whois_lookup r (get_ip_address r self) in
  (self', format_output self').

(** [dns_look_up], line 74: the constructor raises nothing, so the method
    always returns an object. *)
Definition dns_look_up (target : string) : option t := Some (init target).

End DomainInfo.

(** *** [class WebsiteAnalyzer], line 185 *)

Module WebsiteAnalyzer.

(** The negative lookahead [(?![^\[\]]*\])] fails at a position when the
    first bracket character after it is a closing one. *)
Fixpoint closes_bracket (s : string) : bool :=
  match s with
  | "" => false
  | String c s' =>
      if Ascii.eqb c "]" then true
      else if Ascii.eqb c "[" then false
      else closes_bracket s'
  end.

(** [re.split(r",(?![^\[\]]*\])", s)] *)
Fixpoint split_commas (s : string) : list string :=
  match s with
  | "" => [""]
  | String c s' =>
      if Ascii.eqb c "," && negb (closes_bracket s') then "" :: split_commas s'
      else match split_commas s' with
           | piece :: pieces => String c piece :: pieces
           | [] => [String c ""]
           end
  end.

(** [format_output], line 216 *)
Definition format_output (output : string) : string :=
  match output with
  | "" => ""
  | _ => String.concat nl (map strip (split_commas output))
  end.

(** What [subprocess.run(['whatweb', url], capture_output=True, text=True)]
    meets: the process ran and exited, the program was not found, or
    something else went wrong. *)
Inductive process : Type :=
| Exited (returncode : Z) (stdout stderr : string)
| NotFound (msg : string)
| Broken (msg : string).

(** The object [subprocess.run] returns. *)
Record CompletedProcess : Type := mkCompleted {
  returncode : Z;
  stdout : string;
  stderr : string
}.

Inductive run_outcome : Type :=
| Completed (r : CompletedProcess)
| CalledProcessError (msg : string)
| FileNotFoundError (msg : string)
| OtherError (msg : string).

(** [check=True]: a non-zero exit status raises [CalledProcessError], whose
    message [error_text] gives. *)
Definition subprocess_run_check (error_text : Z -> string) (p : process)
    : run_outcome :=
  match p with
  | Exited rc out err =>
      if Z.eqb rc 0 then Completed (mkCompleted rc out err)
      else CalledProcessError (error_text rc)
  | NotFound msg => FileNotFoundError msg
  | Broken msg => OtherError msg
  end.

(** [get_whatweb_technologies], line 197: the lines printed and the value
    returned. *)
Definition get_whatweb_technologies (error_text : Z -> string) (p : process)
    : list string * string :=
  match subprocess_run_check error_text p with
  | Completed result =>
      if Z.eqb (returncode result) 0 then ([], stdout result)
      else (["Error: " +:+ stderr result], "")
  | CalledProcessError e => (["CalledProcessError occurred: " +:+ e], "")
  | FileNotFoundError e => (["FileNotFoundError occurred: " +:+ e], "")
  | OtherError e => (["An unexpected error occurred: " +:+ e], "")
  end.

End WebsiteAnalyzer.

(** *** [main]: the bodies of two modes *)

(** Lines 270-278, the [try] block of [--basic-info]: the lines printed. *)
Definition basic_info_branch (r : Resolver) (tgt : string) : list string :=
  match DomainInfo.dns_look_up tgt with
  | Some analyse => [(DomainInfo.get_domain_info r analyse).2]
  | None => ["Failed to perform DNS lookup."]
  end.

(** Lines 290-300, [--dir-scan]: the lines printed, with those of the scan
    itself. *)
Definition dir_scan_branch (w : World) (a : Args.t) (tgt : string)
    : list string :=
  let '(_, printed, out) := scan_directories w (init tgt (Args.wordlist a)) in
  printed ++
  match out with
  | Return [] => ["No directories found."]
  | Return directories => "Directories found:" :: directories
  | Raise _ msg => ["An error occurred during directory scan: " +:+ msg]
  end.

End Mira.

Import PyStr Re Mira.

(** * Vocabulary of the properties *)

(** A thread holds a dequeued item from [q.get()] until [q.task_done()];
    a thread that died keeps holding its item for ever. *)
Definition holding (p : pc) : nat :=
  match p with
  | AtGet => 0
  | _ => 1
  end.

Definition count_if (b : bool) : nat := if b then 1 else 0.

(** The state of a pool started on [lines], after any execution. *)
Record counted (lines : list string) (tr : list label) (st : pool) : Prop := {
  cnt_unfinished : unfinished_tasks (q st) + dones tr = length lines;
  cnt_items : length (items (q st)) + gets tr = length lines;
  cnt_holding : gets tr = dones tr + sum_list_with holding (threads st)
}.

(** [requests.get(url)] returns a response. *)
Definition responds (w : World) (url : string) : bool :=
  match requests_get w (probe_request url) with
  | Response _ _ => true
  | Raises _ _ => false
  end.

(** The URLs a thread is still going to append. *)
Definition pending (w : World) (p : pc) : list string :=
  match p with
  | AtRequest url => if responds w url then [url] else []
  | AtLock url | AtAppend url => [url]
  | AtGet | AtTaskDone | Dead => []
  end.

Definition outstanding (w : World) (st : pool) : list string :=
  results (self st)
  ++ List.filter (responds w) (map (probe_url (self st)) (items (q st)))
  ++ flat_map (pending w) (threads st).

Definition crashes (w : World) (url : string) : Prop :=
  after_request url (requests_get w (probe_request url)) = Dead.

(** The candidate [c] has not been acknowledged and never will be. *)
Definition doomed (s : WebScanner) (c : string) (st : pool) : Prop :=
  c ∈ items (q st)
  \/ (exists i, threads st !! i = Some (AtRequest (probe_url s c)))
  \/ (exists i, threads st !! i = Some Dead).

(** Steps a thread still has to take for the item it holds. *)
Definition weight (p : pc) : nat :=
  match p with
  | AtGet | Dead => 0
  | AtRequest _ => 4
  | AtLock _ => 3
  | AtAppend _ => 2
  | AtTaskDone => 1
  end.

Definition remaining (st : pool) : nat :=
  5 * length (items (q st)) + sum_list_with weight (threads st).

Definition no_crash (w : World) (s : WebScanner) (lines : list string) : Prop :=
  forall c, c ∈ map strip lines -> ~ crashes w (probe_url s c).

Definition alive (s : WebScanner) (lines : list string) (p : pc) : Prop :=
  p <> Dead
  /\ forall url, p = AtRequest url ->
       exists c, c ∈ map strip lines /\ url = probe_url s c.

Record healthy (s : WebScanner) (lines : list string) (st : pool) : Prop := {
  hl_threads : Forall (alive s lines) (threads st);
  hl_items : forall c, c ∈ items (q st) -> c ∈ map strip lines;
  hl_lock : list_lock st = true ->
            exists i url, threads st !! i = Some (AtAppend url)
}.

(** Every character class of [r] lies within [P]. *)
Fixpoint classes_within (P : ascii -> bool) (r : regex) : Prop :=
  match r with
  | Void | Eps => True
  | Cls p => forall c, p c = true -> P c = true
  | Cat r1 r2 | Alt r1 r2 => classes_within P r1 /\ classes_within P r2
  | Star r1 => classes_within P r1
  end.

(** The characters of a host name that the pattern admits. *)
Definition host_char (c : ascii) : bool := label_char c || Ascii.eqb c ".".

(** A wordlist with a blank line, scanned against [example.com]: the blank
    line gives the URL [http://.example.com], for which [requests.get]
    raises [InvalidURL], a [RequestException] that is no
    [ConnectionError]. *)
Definition blank_line_world : World :=
  mkWorld
    (fun r =>
       if String.eqb (req_url r) "http://.example.com"
       then Raises OtherRequestException "URL has an invalid label."
       else Raises ConnectionError "Name or service not known")
    (fun _ => None).

Definition example_scanner : WebScanner :=
  init "http://example.com" "subdomains.txt".

Definition blank_line_wordlist : list string := ["www" +:+ nl; nl].

(** The wordlist of the end-to-end scenario, scanned against a host on
    which only [www] answers and the other names fail to connect. *)
Definition only_www_world : World :=
  mkWorld
    (fun r =>
       if String.eqb (req_url r) "http://www.example.com"
       then Response None []
       else Raises ConnectionError "Name or service not known")
    (fun _ => None).

Definition fixture_wordlist : list string :=
  ["www"; "mail"; "doesnotexist12345"].

Definition fixture_schedule : list nat := [0; 1; 2; 0; 1; 2; 0; 0; 1; 2; 0].

Definition fixture_pool : pool :=
  start_pool worker_count example_scanner fixture_wordlist.

Definition fixture_exec : list label * pool :=
  default ([], fixture_pool) (exec only_www_world fixture_schedule fixture_pool).

(** [x] is what the loop adds for the anchor [url]: the anchor joined with
    the target, provided the path of the joined URL ends with a slash. *)
Definition directory_link (w : World) (tgt url x : string) : Prop :=
  PyUrl.urljoin (check_bracketed_netloc w) tgt url = PyUrl.Ok x
  /\ exists p, PyUrl.urlparse (check_bracketed_netloc w) x "" = PyUrl.Ok p
               /\ ends_with_char "/" (PyUrl.path p) = true.

(** The page of the directory-extraction scenario. *)
Definition fixture_page : list (option string) :=
  [Some "/a/"; Some "/b"; Some "http://other.example/c/"].

Definition fixture_page_world : World :=
  mkWorld (fun _ => Response None fixture_page) (fun _ => None).

(** The network is down. *)
Definition down_world : World :=
  mkWorld (fun _ => Raises ConnectionError "Connection refused") (fun _ => None).

(** The example scanner after one successful directory scan. *)
Definition scanned_once : WebScanner :=
  (scan_directories fixture_page_world example_scanner).1.1.

(** The subdomains dequeued in an execution, in the order of the calls. *)
Definition dequeued (tr : list label) : list string :=
  omap (fun l => match l with LGet _ c => Some c | _ => None end) tr.

(** A thread is inside the [with list_lock:] block. *)
Definition in_critical (p : pc) : nat :=
  match p with
  | AtAppend _ => 1
  | _ => 0
  end.

(** What [get_ip_address] writes after ["IP Address:"], and the element
    that [whois_lookup] adds, for a target. *)
Definition ip_text (r : Resolver) (tgt : string) : string :=
  match gethostbyname r (DomainInfo.sub_scheme tgt) with
  | Got ip_address => " " +:+ ip_address +:+ nl
  | Failed e =>
      " Not found" +:+ nl +:+ "An error occurred during IP lookup: " +:+ e +:+ nl
  end.

Definition whois_item (r : Resolver) (tgt : string) : DomainInfo.item :=
  default (DomainInfo.Text "")
    (head (DomainInfo.whois_data
             (DomainInfo.whois_lookup r (DomainInfo.init tgt)))).

(** * Properties *)

(** ** The model on sample inputs *)

Example strip_protocol_sample :
  strip_protocol "https://www.example.com" = "www.example.com".
Proof. vm_compute. reflexivity. Qed.

Example strip_sample : strip (" www" +:+ nl) = "www".
Proof. vm_compute. reflexivity. Qed.

Example validate_target_samples :
  validate_target "example.com" = inr "http://example.com"
  /\ validate_target "https://www.example.co.uk" = inr "https://www.example.co.uk"
  /\ validate_target "www.com" = inr "http://www.com"
  /\ validate_target ("example.com" +:+ nl) = inr "http://example.com"
  /\ validate_target "a.b1.com" = inl invalid_url_msg
  /\ validate_target "HTTP://x.com" = inl invalid_url_msg
  /\ validate_target "" = inl no_target_msg.
Proof. vm_compute. repeat split. Qed.

Example urljoin_samples :
  map (PyUrl.urljoin (fun _ => None) "http://example.com/d/e")
    ["/a/"; "c/"; "../x/"; "?q=1"; "//cdn.example/x/"; "mailto:a@b/";
     "http://[::1"]
  = [PyUrl.Ok "http://example.com/a/"; PyUrl.Ok "http://example.com/d/c/";
     PyUrl.Ok "http://example.com/x/"; PyUrl.Ok "http://example.com/d/e?q=1";
     PyUrl.Ok "http://cdn.example/x/"; PyUrl.Ok "mailto:a@b/";
     PyUrl.ValueError "Invalid IPv6 URL"].
Proof. vm_compute. reflexivity. Qed.

Example scan_directories_sample :
  scan_directories fixture_page_world example_scanner
  = (set_results example_scanner
       ["http://other.example/c/"; "http://example.com/a/"],
     [directory_banner "http://example.com"],
     Return ["http://other.example/c/"; "http://example.com/a/"]).
Proof. vm_compute. reflexivity. Qed.

Example fixture_exec_sample :
  exec only_www_world fixture_schedule fixture_pool
  = Some ([LGet 0 "www"; LGet 1 "mail"; LGet 2 "doesnotexist12345";
           LRequest 0 (mkRequest "http://www.example.com" None) (Response None []);
           LRequest 1 (mkRequest "http://mail.example.com" None)
             (Raises ConnectionError "Name or service not known");
           LRequest 2 (mkRequest "http://doesnotexist12345.example.com" None)
             (Raises ConnectionError "Name or service not known");
           LAcquire 0; LAppend 0 "http://www.example.com";
           LTaskDone 1; LTaskDone 2; LTaskDone 0],
          mkPool (set_results example_scanner ["http://www.example.com"])
            (mkQueue [] 0) false (replicate 10 AtGet)).
Proof. vm_compute. reflexivity. Qed.

(** ** Lists updated in place *)

Section ListUpdate.
Context {A : Type}.

Lemma sum_list_with_insert (f : A -> nat) (l : list A) (i : nat) (x y : A) :
  l !! i = Some x ->
  sum_list_with f (<[i := y]> l) + f x = sum_list_with f l + f y.
Proof.
  revert i. induction l as [|a l IH]; intros [|i] Hi; simplify_eq/=.
  - lia.
  - specialize (IH _ Hi). lia.
Qed.

Lemma sum_list_with_lookup_le (f : A -> nat) (l : list A) (i : nat) (x : A) :
  l !! i = Some x -> f x <= sum_list_with f l.
Proof.
  revert i. induction l as [|a l IH]; intros [|i] Hi; simplify_eq/=.
  - lia.
  - specialize (IH _ Hi). lia.
Qed.

Lemma sum_list_with_pos (f : A -> nat) (l : list A) :
  0 < sum_list_with f l -> exists i x, l !! i = Some x /\ 0 < f x.
Proof.
  induction l as [|a l IH]; simpl; [lia|]. intros Hpos.
  destruct (decide (0 < f a)) as [Ha|Ha].
  - exists 0, a. done.
  - destruct IH as (i & x & Hi & Hx); [lia|]. by exists (S i), x.
Qed.

Lemma sum_list_with_zero (f : A -> nat) (l : list A) :
  sum_list_with f l = 0 -> Forall (fun x => f x = 0) l.
Proof.
  induction l as [|a l IH]; simpl; intros H0; constructor; [lia|].
  apply IH. lia.
Qed.

Lemma flat_map_insert_perm {B : Type} (f : A -> list B) (l : list A)
    (i : nat) (x y : A) :
  l !! i = Some x ->
  flat_map f (<[i := y]> l) ++ f x ≡ₚ flat_map f l ++ f y.
Proof.
  revert i. induction l as [|a l IH]; intros [|i] Hi; simplify_eq/=.
  - rewrite (Permutation_app_comm (f y ++ flat_map f l) (f x)).
    rewrite <- (assoc_L (++)).
    apply Permutation_app_head, Permutation_app_comm.
  - rewrite <- !(assoc_L (++)). by rewrite (IH _ Hi).
Qed.
End ListUpdate.

(** ** The queue *)

Lemma fold_put (l : list string) (q0 : Queue) :
  fold_left put l q0 = mkQueue (items q0 ++ l) (unfinished_tasks q0 + length l).
Proof.
  revert q0. induction l as [|x l IH]; intros [its n]; simpl.
  - by rewrite app_nil_r, Nat.add_0_r.
  - rewrite IH. simpl. rewrite <- (assoc_L (++)). f_equal. lia.
Qed.

Lemma start_pool_queue (n : nat) (s : WebScanner) (lines : list string) :
  q (start_pool n s lines) = mkQueue (map strip lines) (length lines).
Proof. unfold start_pool; simpl. rewrite fold_put. simpl. by rewrite length_map. Qed.

(** ** The worker pool: counting invariants *)

Lemma gets_snoc (tr : list label) (l : label) :
  gets (tr ++ [l]) = gets tr + count_if (is_get l).
Proof.
  unfold gets. rewrite List.filter_app, length_app. simpl.
  by destruct (is_get l).
Qed.

Lemma dones_snoc (tr : list label) (l : label) :
  dones (tr ++ [l]) = dones tr + count_if (is_task_done l).
Proof.
  unfold dones. rewrite List.filter_app, length_app. simpl.
  by destruct (is_task_done l).
Qed.

Lemma holding_after_request (url : string) (res : http_result) :
  holding (after_request url res) = 1.
Proof. by destruct res as [? ?|[] ?]. Qed.

Ltac step_cases H :=
  unfold scan_step, set_thread, get, task_done in H;
  repeat case_match; simplify_eq/=.

Lemma scan_step_counts (w : World) (i : nat) (st st' : pool) (l : label) :
  scan_step w i st = Some (l, st') ->
  unfinished_tasks (q st') + count_if (is_task_done l) = unfinished_tasks (q st)
  /\ length (items (q st')) + count_if (is_get l) = length (items (q st))
  /\ sum_list_with holding (threads st') + count_if (is_task_done l)
     = sum_list_with holding (threads st) + count_if (is_get l)
  /\ length (threads st') = length (threads st)
  /\ Target (self st') = Target (self st).
Proof.
  intros H. step_cases H;
    match goal with
    | Hl : threads _ !! _ = Some ?p |- _ =>
        repeat split; rewrite ?length_insert; try done; try lia;
        match goal with
        | |- context [sum_list_with holding (<[_ := ?p']> _)] =>
            pose proof (sum_list_with_insert holding _ _ _ p' Hl) as Hs;
            simpl in Hs; rewrite ?holding_after_request in Hs; lia
        end
    end.
Qed.

Lemma sum_holding_replicate (n : nat) :
  sum_list_with holding (replicate n AtGet) = 0.
Proof. induction n as [|n IH]; simpl; lia. Qed.

Lemma run_counted (w : World) (n : nat) (s : WebScanner) (lines : list string)
    (tr : list label) (st : pool) :
  run w (start_pool n s lines) tr st -> counted lines tr st.
Proof.
  induction 1 as [|tr st l st' _ IH [i Hstep]].
  - split; rewrite ?start_pool_queue; simpl; rewrite ?length_map;
      rewrite ?sum_holding_replicate; unfold gets, dones; simpl; lia.
  - destruct IH as [I1 I2 I3].
    destruct (scan_step_counts _ _ _ _ _ Hstep) as (S1 & S2 & S3 & _).
    split; rewrite ?gets_snoc, ?dones_snoc; lia.
Qed.

Lemma run_threads_length (w : World) (st0 : pool) (tr : list label) (st : pool) :
  run w st0 tr st -> length (threads st) = length (threads st0).
Proof.
  induction 1 as [|tr st l st' _ IH [i Hstep]]; [done|].
  destruct (scan_step_counts _ _ _ _ _ Hstep) as (_ & _ & _ & S4 & _). lia.
Qed.

Lemma run_Target (w : World) (st0 : pool) (tr : list label) (st : pool) :
  run w st0 tr st -> Target (self st) = Target (self st0).
Proof.
  induction 1 as [|tr st l st' _ IH [i Hstep]]; [done|].
  destruct (scan_step_counts _ _ _ _ _ Hstep) as (_ & _ & _ & _ & S5). congruence.
Qed.

Lemma holding_zero_idle (ths : list pc) :
  sum_list_with holding ths = 0 -> Forall (eq AtGet) ths.
Proof.
  intros H0. apply sum_list_with_zero in H0.
  eapply Forall_impl; [exact H0|]. by intros [] ?.
Qed.

Lemma join_returns_true (q0 : Queue) :
  join_returns q0 = true <-> unfinished_tasks q0 = 0.
Proof. unfold join_returns. apply Nat.eqb_eq. Qed.

(** ** The worker pool: what ends up in [self.results] *)

Lemma pending_after_request (w : World) (url : string) :
  pending w (after_request url (requests_get w (probe_request url)))
  = pending w (AtRequest url).
Proof.
  unfold pending at 2, responds.
  by destruct (requests_get w (probe_request url)) as [? ?|[] ?].
Qed.

Lemma probe_url_Target (s1 s2 : WebScanner) (c : string) :
  Target s1 = Target s2 -> probe_url s1 c = probe_url s2 c.
Proof. unfold probe_url. by intros ->. Qed.

Lemma scan_step_outstanding (w : World) (i : nat) (st st' : pool) (l : label) :
  scan_step w i st = Some (l, st') -> outstanding w st' ≡ₚ outstanding w st.
Proof.
  intros H. unfold outstanding. step_cases H;
    match goal with
    | Hl : threads _ !! _ = Some ?p |- context [<[_ := ?p']> (threads _)] =>
        pose proof (flat_map_insert_perm (pending w) _ _ _ p' Hl) as Hp;
        simpl in Hp; rewrite ?pending_after_request in Hp; simpl in Hp;
        rewrite ?app_nil_r in Hp
    end.
  - (* q.get() *)
    apply Permutation_app_head.
    destruct (responds w (probe_url (self st) s)); simpl in *.
    + rewrite Hp, (assoc_L (++)). symmetry. apply Permutation_cons_append.
    + by rewrite app_nil_r in Hp; rewrite Hp.
  - (* requests.get(url) *)
    apply Permutation_app_head, Permutation_app_head.
    by apply Permutation_app_inv_r in Hp.
  - (* acquire list_lock *)
    apply Permutation_app_head, Permutation_app_head.
    by apply Permutation_app_inv_r in Hp.
  - (* self.results.append(url) *)
    change (probe_url (set_results (self st) (results (self st) ++ [url])))
      with (probe_url (self st)).
    rewrite <- Hp, <- (assoc_L (++) (results (self st))).
    apply Permutation_app_head. rewrite (assoc_L (++) (List.filter _ _)).
    apply Permutation_cons_append.
  - (* q.task_done() *)
    by rewrite Hp.
  - (* q.task_done() raising *)
    by rewrite Hp.
Qed.

Lemma flat_map_pending_replicate (w : World) (n : nat) :
  flat_map (pending w) (replicate n AtGet) = [].
Proof. induction n as [|n IH]; simpl; done. Qed.

Lemma run_outstanding (w : World) (n : nat) (s : WebScanner) (lines : list string)
    (tr : list label) (st : pool) :
  run w (start_pool n s lines) tr st ->
  outstanding w st ≡ₚ List.filter (responds w) (map (probe_url s) (map strip lines)).
Proof.
  induction 1 as [|tr st l st' _ IH [i Hstep]].
  - unfold outstanding. rewrite start_pool_queue. simpl.
    rewrite flat_map_pending_replicate, app_nil_r.
    by rewrite (map_ext _ _ (fun c => probe_url_Target (set_results s []) s c eq_refl)).
  - by rewrite (scan_step_outstanding _ _ _ _ _ Hstep).
Qed.

Lemma flat_map_pending_idle (w : World) (ths : list pc) :
  Forall (eq AtGet) ths -> flat_map (pending w) ths = [].
Proof. induction 1 as [|p ths <- _ IH]; simpl; done. Qed.

(** Once [q.join()] can return, nothing is queued or in flight. *)
Lemma drained_state (lines : list string) (tr : list label) (st : pool) :
  counted lines tr st ->
  join_returns (q st) = true ->
  gets tr = length lines /\ dones tr = length lines
  /\ items (q st) = [] /\ Forall (eq AtGet) (threads st).
Proof.
  intros [I1 I2 I3] Hj%join_returns_true.
  assert (sum_list_with holding (threads st) = 0) as H0 by lia.
  assert (length (items (q st)) = 0) as Hi by lia.
  repeat split; try lia.
  - by apply length_zero_iff_nil.
  - by apply holding_zero_idle.
Qed.

Lemma drained_results (w : World) (n : nat) (s : WebScanner) (lines : list string)
    (tr : list label) (st : pool) :
  run w (start_pool n s lines) tr st ->
  join_returns (q st) = true ->
  results (self st)
  ≡ₚ List.filter (responds w) (map (probe_url s) (map strip lines)).
Proof.
  intros Hrun Hj.
  destruct (drained_state lines tr st (run_counted _ _ _ _ _ _ Hrun) Hj)
    as (_ & _ & Hitems & Hidle).
  rewrite <- (run_outstanding _ _ _ _ _ _ Hrun). unfold outstanding.
  rewrite Hitems, (flat_map_pending_idle _ _ Hidle). simpl.
  by rewrite app_nil_r.
Qed.

(** ** The worker pool: a thread that dies blocks [q.join()] for ever *)

Lemma scan_step_other (w : World) (i j : nat) (st st' : pool) (l : label) :
  scan_step w i st = Some (l, st') -> i <> j ->
  threads st' !! j = threads st !! j.
Proof. intros H Hij. step_cases H; by rewrite list_lookup_insert_ne. Qed.

Lemma scan_step_doomed (w : World) (s : WebScanner) (c : string)
    (i : nat) (st st' : pool) (l : label) :
  crashes w (probe_url s c) ->
  Target (self st) = Target s ->
  scan_step w i st = Some (l, st') ->
  doomed s c st -> doomed s c st'.
Proof.
  intros Hcrash HT Hstep [Hin|[[j Hj]|[j Hj]]].
  - step_cases Hstep; try by left.
    apply elem_of_cons in Hin as [->|Hin]; [|by left].
    right; left. exists i. unfold doomed; simpl.
    rewrite list_lookup_insert_eq by (by eapply lookup_lt_Some).
    by rewrite (probe_url_Target _ s _ HT).
  - destruct (decide (i = j)) as [->|Hne].
    + right; right. exists j. step_cases Hstep.
      rewrite list_lookup_insert_eq by (by eapply lookup_lt_Some).
      by rewrite Hcrash.
    + right; left. exists j. by rewrite (scan_step_other _ _ _ _ _ _ Hstep Hne).
  - destruct (decide (i = j)) as [->|Hne].
    + step_cases Hstep.
    + right; right. exists j. by rewrite (scan_step_other _ _ _ _ _ _ Hstep Hne).
Qed.

Lemma run_doomed (w : World) (n : nat) (s : WebScanner) (lines : list string)
    (c : string) (tr : list label) (st : pool) :
  c ∈ map strip lines ->
  crashes w (probe_url s c) ->
  run w (start_pool n s lines) tr st -> doomed s c st.
Proof.
  intros Hc Hcrash. induction 1 as [|tr st l st' Hrun IH [i Hstep]].
  - left. by rewrite start_pool_queue.
  - eapply scan_step_doomed; eauto.
    by rewrite (run_Target _ _ _ _ Hrun).
Qed.

Lemma doomed_unfinished (s : WebScanner) (c : string) (lines : list string)
    (tr : list label) (st : pool) :
  counted lines tr st -> doomed s c st -> join_returns (q st) = false.
Proof.
  intros [I1 I2 I3] Hd. apply Nat.eqb_neq.
  destruct Hd as [Hin|[[j Hj]|[j Hj]]].
  - destruct (items (q st)); [by apply elem_of_nil in Hin|]. simpl in *. lia.
  - pose proof (sum_list_with_lookup_le holding _ _ _ Hj). simpl in *. lia.
  - pose proof (sum_list_with_lookup_le holding _ _ _ Hj). simpl in *. lia.
Qed.

(** If the request for one candidate raises anything but
    [ConnectionError], [q.join()] never returns. *)
Lemma crash_blocks_join (w : World) (n : nat) (s : WebScanner)
    (lines : list string) (c : string) (tr : list label) (st : pool) :
  c ∈ map strip lines ->
  crashes w (probe_url s c) ->
  run w (start_pool n s lines) tr st ->
  join_returns (q st) = false.
Proof.
  intros Hc Hcrash Hrun.
  eapply doomed_unfinished; [by eapply run_counted|by eapply run_doomed].
Qed.

(** ** The worker pool: termination *)

Lemma weight_after_request (url : string) (res : http_result) :
  weight (after_request url res) <= 3.
Proof. destruct res as [? ?|[] ?]; simpl; lia. Qed.

Lemma scan_step_remaining (w : World) (i : nat) (st st' : pool) (l : label) :
  scan_step w i st = Some (l, st') -> remaining st' < remaining st.
Proof.
  intros H. unfold remaining. step_cases H;
    match goal with
    | Hl : threads _ !! _ = Some ?p |- context [<[_ := ?p']> (threads _)] =>
        pose proof (sum_list_with_insert weight _ _ _ p' Hl) as Hs;
        pose proof (weight_after_request url
                      (requests_get w (probe_request url))) as Hw ||
        idtac;
        simpl in Hs; lia
    end.
Qed.

Lemma sum_weight_replicate (n : nat) :
  sum_list_with weight (replicate n AtGet) = 0.
Proof. induction n as [|n IH]; simpl; lia. Qed.

(** No execution takes more than five steps per line of the wordlist. *)
Lemma run_bounded (w : World) (n : nat) (s : WebScanner) (lines : list string)
    (tr : list label) (st : pool) :
  run w (start_pool n s lines) tr st ->
  length tr + remaining st <= 5 * length lines.
Proof.
  induction 1 as [|tr st l st' _ IH [i Hstep]].
  - unfold remaining. rewrite start_pool_queue. simpl.
    rewrite length_map, sum_weight_replicate. lia.
  - apply scan_step_remaining in Hstep. rewrite length_app. simpl. lia.
Qed.

(** ** The worker pool: progress when no request crashes a thread *)

Lemma alive_simple (s : WebScanner) (lines : list string) (p : pc) :
  p <> Dead -> (forall url, p <> AtRequest url) -> alive s lines p.
Proof. intros H1 H2. split; [done|]. intros url ->. by destruct (H2 url). Qed.

Lemma scan_step_healthy (w : World) (s : WebScanner) (lines : list string)
    (tr : list label) (i : nat) (st st' : pool) (l : label) :
  no_crash w s lines ->
  Target (self st) = Target s ->
  counted lines tr st ->
  scan_step w i st = Some (l, st') ->
  healthy s lines st -> healthy s lines st'.
Proof.
  intros Hsafe HT [I1 I2 I3] Hstep [Hth Hit Hlk].
  assert (forall j p, i <> j -> threads st !! j = Some p ->
                      threads st' !! j = Some p) as Hother.
  { intros j p Hne Hj. by rewrite (scan_step_other _ _ _ _ _ _ Hstep Hne). }
  assert (forall url, threads st !! i = Some (AtAppend url) ->
            exists url', l = LAppend i url') as Happ.
  { intros url Hi. unfold scan_step in Hstep. rewrite Hi in Hstep.
    simplify_eq. eauto. }
  assert (list_lock st = true -> (forall url, l <> LAppend i url) ->
          exists j url, threads st' !! j = Some (AtAppend url)) as Hkeep.
  { intros Hl Hnot. destruct (Hlk Hl) as (j & url & Hj).
    destruct (decide (i = j)) as [->|Hne].
    - destruct (Happ _ Hj) as [url' ->]. by destruct (Hnot url').
    - exists j, url. by apply Hother. }
  step_cases Hstep.
  - (* q.get() *)
    split; simpl.
    + apply Forall_insert; [done|]. split; [done|]. intros url [= <-].
      exists s0. split; [apply Hit; left|]. by apply probe_url_Target.
    + intros c Hc. apply Hit. by right.
    + intros Hl. apply Hkeep; [done|by intros ?].
  - (* requests.get(url) *)
    split; simpl; [|done|].
    + apply Forall_insert; [done|].
      assert (alive s lines (AtRequest url)) as [_ Hurl].
      { eapply Forall_lookup_1; eauto. }
      destruct (Hurl _ eq_refl) as (c & Hc & ->).
      specialize (Hsafe c Hc). unfold crashes in Hsafe.
      apply alive_simple; [done|].
      by destruct (requests_get w _) as [? ?|[] ?].
    + intros Hl. apply Hkeep; [done|by intros ?].
  - (* acquire list_lock *)
    split; simpl; [|done|].
    + apply Forall_insert; [done|]. by apply alive_simple.
    + intros _. exists i, url.
      apply list_lookup_insert_eq. by eapply lookup_lt_Some.
  - (* self.results.append(url) *)
    split; simpl; [|done|done].
    apply Forall_insert; [done|]. by apply alive_simple.
  - (* q.task_done() *)
    split; simpl; [|done|].
    + apply Forall_insert; [done|]. by apply alive_simple.
    + intros Hl. apply Hkeep; [done|by intros ?].
  - (* q.task_done() cannot raise: the thread still holds its item *)
    match goal with H : threads st !! i = Some AtTaskDone |- _ =>
      pose proof (sum_list_with_lookup_le holding _ _ _ H) as Hle end.
    simpl in *. lia.
Qed.

Lemma run_healthy (w : World) (n : nat) (s : WebScanner) (lines : list string)
    (tr : list label) (st : pool) :
  no_crash w s lines ->
  run w (start_pool n s lines) tr st -> healthy s lines st.
Proof.
  intros Hsafe. induction 1 as [|tr st l st' Hrun IH [i Hstep]].
  - split; simpl.
    + apply Forall_replicate. by apply alive_simple.
    + intros c. by rewrite fold_put.
    + done.
  - eapply scan_step_healthy; eauto.
    + by rewrite (run_Target _ _ _ _ Hrun).
    + by eapply run_counted.
Qed.

(** As long as [q.join()] has not returned, some thread can take a step. *)
Lemma pool_progress (w : World) (n : nat) (s : WebScanner) (lines : list string)
    (tr : list label) (st : pool) :
  0 < n ->
  no_crash w s lines ->
  run w (start_pool n s lines) tr st ->
  join_returns (q st) = false ->
  exists l st', step w st l st'.
Proof.
  intros Hn Hsafe Hrun Hj. apply Nat.eqb_neq in Hj.
  destruct (run_counted _ _ _ _ _ _ Hrun) as [I1 I2 I3].
  destruct (run_healthy _ _ _ _ _ _ Hsafe Hrun) as [Hth _ Hlk].
  pose proof (run_threads_length _ _ _ _ Hrun) as Hlen. simpl in Hlen.
  rewrite length_replicate in Hlen.
  destruct (decide (0 < sum_list_with holding (threads st))) as [Hpos|Hzero].
  - destruct (sum_list_with_pos _ _ Hpos) as (i & p & Hi & Hp).
    assert (alive s lines p) as [Hd _] by (eapply Forall_lookup_1; eauto).
    destruct p as [|url|url|url| |]; simpl in Hp; try lia; try done.
    + eexists _, _, i. unfold scan_step. by rewrite Hi.
    + destruct (list_lock st) eqn:Hl.
      * destruct (Hlk eq_refl) as (j & url' & Hj').
        eexists _, _, j. unfold scan_step. by rewrite Hj'.
      * eexists _, _, i. unfold scan_step. by rewrite Hi, Hl.
    + eexists _, _, i. unfold scan_step. by rewrite Hi.
    + destruct (task_done (q st)) as [q'|] eqn:Hq.
      * eexists _, _, i. unfold scan_step. by rewrite Hi, Hq.
      * eexists _, _, i. unfold scan_step. by rewrite Hi, Hq.
  - assert (sum_list_with holding (threads st) = 0) as H0 by lia.
    destruct (lookup_lt_is_Some_2 (threads st) 0) as [p Hp]; [lia|].
    pose proof (Forall_lookup_1 _ _ _ _ (holding_zero_idle _ H0) Hp) as <-.
    destruct (items (q st)) as [|c rest] eqn:Hitems; [simpl in *; lia|].
    eexists _, _, 0. unfold scan_step, get. by rewrite Hp, Hitems.
Qed.

(** Every execution can be continued until [q.join()] returns. *)
Lemma pool_can_finish (w : World) (n : nat) (s : WebScanner) (lines : list string)
    (tr : list label) (st : pool) :
  0 < n ->
  no_crash w s lines ->
  run w (start_pool n s lines) tr st ->
  exists tr' st', run w (start_pool n s lines) tr' st'
                  /\ join_returns (q st') = true.
Proof.
  intros Hn Hsafe. remember (remaining st) as m eqn:Hm.
  revert tr st Hm. induction (lt_wf m) as [m _ IH]. intros tr st -> Hrun.
  destruct (join_returns (q st)) eqn:Hj; [by eauto|].
  destruct (pool_progress _ _ _ _ _ _ Hn Hsafe Hrun Hj) as (l & st' & Hstep).
  pose proof Hstep as [i Hi]. apply scan_step_remaining in Hi.
  eapply (IH _ Hi (tr ++ [l]) st' eq_refl). by econstructor.
Qed.

(** ** Strings *)

#[local] Arguments String.append !_ _ / : simpl nomatch.

Lemma append_nil_r (s : string) : s +:+ "" = s.
Proof. induction s as [|c s IH]; simpl; [done|by f_equal]. Qed.

Lemma append_assoc (s1 s2 s3 : string) :
  (s1 +:+ s2) +:+ s3 = s1 +:+ (s2 +:+ s3).
Proof. induction s1 as [|c s1 IH]; simpl; [done|by f_equal]. Qed.

Lemma append_eq_nil (s1 s2 : string) : s1 +:+ s2 = "" -> s1 = "" /\ s2 = "".
Proof. by destruct s1. Qed.

Lemma all_chars_app (P : ascii -> bool) (s1 s2 : string) :
  PyUrl.all_chars P (s1 +:+ s2) = PyUrl.all_chars P s1 && PyUrl.all_chars P s2.
Proof.
  induction s1 as [|c s1 IH]; simpl; [done|]. rewrite IH. by destruct (P c).
Qed.

Lemma startswith_inv (p t : string) :
  startswith p t = true -> exists r, t = p +:+ r.
Proof.
  unfold startswith. revert t. induction p as [|a p IH]; intros t; simpl.
  - intros _. by exists t.
  - destruct t as [|b t]; simpl; [done|].
    destruct (ascii_dec a b) as [->|]; [|done].
    intros [r ->]%IH. by exists r.
Qed.

Lemma startswith_app (p r : string) : startswith p (p +:+ r) = true.
Proof.
  unfold startswith. induction p as [|a p IH]; simpl; [by destruct r|].
  by destruct (ascii_dec a a).
Qed.

Lemma replace_from_skip (old new p s : string) :
  replace_from (String.length p) old new (p +:+ s) = replace_from 0 old new s.
Proof. induction p as [|c p IH]; simpl; [done|]. by destruct (p +:+ s). Qed.

(** An occurrence at the start is replaced. *)
Lemma replace_prefix (c : ascii) (old new s : string) :
  replace (String c old) new (String c old +:+ s)
  = new +:+ replace (String c old) new s.
Proof.
  unfold replace. cbn [append replace_from].
  change (String c (old +:+ s)) with (String c old +:+ s).
  rewrite startswith_app.
  change (String.length (String c old) - 1) with (String.length old - 0).
  by rewrite Nat.sub_0_r, replace_from_skip.
Qed.

(** A character before which [old] does not start is kept. *)
Lemma replace_cons (c : ascii) (old new s : string) :
  startswith old (String c s) = false ->
  replace old new (String c s) = String c (replace old new s).
Proof. unfold replace. cbn [replace_from]. by intros ->. Qed.

(** A string over an alphabet in which [old] cannot be written is left
    unchanged. *)
Lemma replace_absent (P : ascii -> bool) (old new : string) :
  PyUrl.all_chars P old = false ->
  forall s, PyUrl.all_chars P s = true -> replace old new s = s.
Proof.
  intros Hold. induction s as [|c s IH]; [done|].
  intros Hs. pose proof Hs as Hs'. simpl in Hs'.
  apply andb_true_iff in Hs' as [_ Hs'].
  rewrite replace_cons, IH; [done|done|].
  destruct (startswith old (String c s)) eqn:Hp; [|done].
  apply startswith_inv in Hp as [r Hr]. rewrite Hr, all_chars_app, Hold in Hs.
  done.
Qed.

(** ** Regular expressions: the matcher decides the language *)

Lemma matches_nil_nullable (r : regex) (s : string) :
  matches r s -> s = "" -> nullable r = true.
Proof.
  induction 1 as [| | r1 r2 s1 s2 _ IH1 _ IH2 | r1 r2 s _ IH | r1 r2 s _ IH
                 | | ]; intros Hs; simpl; try done.
  - apply append_eq_nil in Hs as [-> ->]. by rewrite IH1, IH2.
  - by rewrite IH.
  - rewrite IH by done. by destruct (nullable r1).
Qed.

Lemma nullable_matches_nil (r : regex) : nullable r = true -> matches r "".
Proof.
  induction r as [| |p|r1 IH1 r2 IH2|r1 IH1 r2 IH2|r IH]; simpl; try done.
  - intros _. constructor.
  - intros [H1 H2]%andb_true_iff. apply (m_cat r1 r2 "" ""); auto.
  - intros [H1|H2]%orb_true_iff; [apply m_alt_l|apply m_alt_r]; auto.
  - intros _. constructor.
Qed.

Lemma deriv_sound (c : ascii) (r : regex) (s : string) :
  matches (deriv c r) s -> matches r (String c s).
Proof.
  revert s. induction r as [| |p|r1 IH1 r2 IH2|r1 IH1 r2 IH2|r IH];
    intros s; simpl.
  - inversion 1.
  - inversion 1.
  - destruct (p c) eqn:Hp; inversion 1; subst. by constructor.
  - assert (forall t, matches (Cat (deriv c r1) r2) t ->
                      matches (Cat r1 r2) (String c t)) as Hcat.
    { intros t Ht. inversion Ht; subst.
      apply (m_cat r1 r2 (String c _) _); auto. }
    destruct (nullable r1) eqn:Hn; [|by auto].
    inversion 1; subst; [by auto|].
    apply (m_cat r1 r2 "" (String c s)); auto using nullable_matches_nil.
  - inversion 1; subst; [apply m_alt_l|apply m_alt_r]; auto.
  - inversion 1; subst. apply (m_star_app r (String c _) _); auto.
Qed.

Lemma deriv_complete (c : ascii) (r : regex) (t : string) :
  matches r t -> forall s, t = String c s -> matches (deriv c r) s.
Proof.
  induction 1 as [| p a Hp | r1 r2 s1 s2 H1 IH1 H2 IH2 | r1 r2 s0 _ IH
                 | r1 r2 s0 _ IH | | r s1 s2 H1 IH1 H2 IH2 ];
    intros s Heq; simpl; try done.
  - simplify_eq. rewrite Hp. constructor.
  - destruct s1 as [|a s1]; simpl in Heq.
    + rewrite (matches_nil_nullable _ _ H1 eq_refl). apply m_alt_r; auto.
    + simplify_eq.
      assert (matches (Cat (deriv c r1) r2) (s1 +:+ s2)) by (constructor; auto).
      destruct (nullable r1); [by apply m_alt_l|done].
  - apply m_alt_l; auto.
  - apply m_alt_r; auto.
  - destruct s1 as [|a s1]; simpl in Heq; [by apply IH2|].
    simplify_eq. constructor; auto.
Qed.

Theorem fullmatch_matches (r : regex) (s : string) :
  fullmatch r s = true <-> matches r s.
Proof.
  revert r. induction s as [|c s IH]; intros r; simpl.
  - split; [apply nullable_matches_nil|]. intros H. by eapply matches_nil_nullable.
  - rewrite IH. split; [apply deriv_sound|]. intros H. by eapply deriv_complete.
Qed.

Lemma matches_lit (s t : string) : matches (lit s) t -> t = s.
Proof.
  revert t. induction s as [|c s IH]; intros t; simpl.
  - by inversion 1.
  - inversion 1 as [| |? ? s1 s2 H1 H2| | | |]; subst.
    inversion H1; subst. apply IH in H2 as ->.
    match goal with H : Ascii.eqb _ _ = true |- _ =>
      apply Ascii.eqb_eq in H as -> end.
    done.
Qed.

Lemma matches_all_chars (P : ascii -> bool) (r : regex) (s : string) :
  matches r s -> classes_within P r -> PyUrl.all_chars P s = true.
Proof.
  induction 1; simpl; intros Hw; rewrite ?all_chars_app; try done.
  - by rewrite (Hw _ H).
  - destruct Hw. by rewrite IHmatches1, IHmatches2.
  - destruct Hw; auto.
  - destruct Hw; auto.
  - by rewrite IHmatches1, IHmatches2.
Qed.

Lemma chop_newline_spec (s s' : string) :
  chop_newline s = Some s' -> s = s' +:+ nl.
Proof.
  revert s'. induction s as [|c s IH]; intros s'; simpl; [done|].
  destruct s as [|c' s].
  - destruct (Ascii.eqb c "010") eqn:Hc; [|done].
    apply Ascii.eqb_eq in Hc as ->. by intros [= <-].
  - destruct (chop_newline (String c' s)) as [t|]; [|done].
    simpl. intros [= <-]. by rewrite (IH t eq_refl).
Qed.

(** What [pattern.match] accepts: the strings of the pattern's language,
    alone or followed by one line feed; [group(0)] is the string without
    the line feed. *)
Lemma match_anchored_spec (r : regex) (s g : string) :
  match_anchored r s = Some g ->
  matches r g /\ (s = g \/ s = g +:+ nl).
Proof.
  unfold match_anchored. destruct (fullmatch r s) eqn:Hs.
  - intros [= <-]. split; [by apply fullmatch_matches|by left].
  - destruct (chop_newline s) as [s'|] eqn:Hc; [|done].
    destruct (fullmatch r s') eqn:Hs'; [|done]. intros [= <-].
    split; [by apply fullmatch_matches|right; by apply chop_newline_spec].
Qed.

Lemma chop_newline_app (g : string) : chop_newline (g +:+ nl) = Some g.
Proof.
  induction g as [|c g IH]; [done|].
  change (String c g +:+ nl) with (String c (g +:+ nl)).
  destruct (g +:+ nl) as [|c' t] eqn:Ht; [by destruct g|].
  change (chop_newline (String c (String c' t)))
    with (String c <$> chop_newline (String c' t)).
  by rewrite IH.
Qed.

Lemma fullmatch_false (r : regex) (s : string) :
  fullmatch r s = false <-> ~ matches r s.
Proof. rewrite <- fullmatch_matches. by destruct (fullmatch r s). Qed.

(** [pattern.match] finds no match exactly for the strings that are not in
    the language of the pattern, not even after dropping one final line
    feed. *)
Lemma match_anchored_none (r : regex) (s : string) :
  match_anchored r s = None <->
  ~ matches r s /\ forall g, s = g +:+ nl -> ~ matches r g.
Proof.
  unfold match_anchored. split.
  - destruct (fullmatch r s) eqn:Hs; [done|].
    apply fullmatch_false in Hs. intros Hc. split; [done|]. intros g ->.
    rewrite chop_newline_app in Hc.
    destruct (fullmatch r g) eqn:Hg; [done|]. by apply fullmatch_false.
  - intros [Hs Hg]. apply fullmatch_false in Hs. rewrite Hs.
    destruct (chop_newline s) as [g|] eqn:Hc; [|done].
    apply chop_newline_spec in Hc.
    by rewrite (proj2 (fullmatch_false r g) (Hg g Hc)).
Qed.

(** ** [main]: the normalized target *)

Lemma host_re_chars : classes_within host_char host_re.
Proof.
  unfold host_re, www_re, domain_re, opt, plus, at_least2, chr.
  cbn [classes_within lit]. unfold chr.
  repeat split; intros c Hc;
    try (apply Ascii.eqb_eq in Hc as <-; reflexivity);
    unfold host_char, label_char; unfold alpha, label_char in Hc;
    by rewrite Hc.
Qed.

Lemma host_all_chars (h : string) :
  matches host_re h -> PyUrl.all_chars host_char h = true.
Proof. intros H. eapply matches_all_chars; [done|apply host_re_chars]. Qed.

Lemma scheme_re_cases (sch : string) :
  matches scheme_re sch -> sch = "" \/ sch = "http://" \/ sch = "https://".
Proof.
  unfold scheme_re, opt. inversion 1 as [| | | ? ? ? Hl | ? ? ? Hr | |]; subst.
  - inversion Hl as [| |? ? s1 s2 H1 H2| | | |]; subst.
    apply (matches_lit "http") in H1 as ->.
    inversion H2 as [| |? ? s3 s4 H3 H4| | | |]; subst.
    apply (matches_lit "://") in H4 as ->.
    inversion H3 as [| | | ? ? ? Hs | ? ? ? He | |]; subst.
    + inversion Hs as [|? c Hc| | | | |]; subst.
      apply Ascii.eqb_eq in Hc as <-. by right; right.
    + inversion He; subst. by right; left.
  - inversion Hr. by left.
Qed.

Lemma replace_http_host (h : string) :
  PyUrl.all_chars host_char h = true -> replace "http://" "" h = h.
Proof. by apply (replace_absent host_char). Qed.

Lemma replace_https_host (h : string) :
  PyUrl.all_chars host_char h = true -> replace "https://" "" h = h.
Proof. by apply (replace_absent host_char). Qed.

Lemma strip_protocol_host (h : string) :
  PyUrl.all_chars host_char h = true -> strip_protocol h = h.
Proof.
  intros Hh. unfold strip_protocol.
  by rewrite (replace_http_host h Hh), (replace_https_host h Hh).
Qed.

Lemma strip_protocol_http (h : string) :
  PyUrl.all_chars host_char h = true -> strip_protocol ("http://" +:+ h) = h.
Proof.
  intros Hh. unfold strip_protocol.
  rewrite (replace_prefix "h" "ttp://" "" h). simpl.
  by rewrite (replace_http_host h Hh), (replace_https_host h Hh).
Qed.

Lemma strip_protocol_https (h : string) :
  PyUrl.all_chars host_char h = true -> strip_protocol ("https://" +:+ h) = h.
Proof.
  intros Hh. unfold strip_protocol. simpl.
  do 8 (rewrite (replace_cons _ "http://") by (vm_compute; reflexivity)).
  rewrite (replace_http_host h Hh).
  change (replace "https://" "" ("https://" +:+ h) = h).
  rewrite (replace_prefix "h" "ttps://" "" h). simpl.
  by rewrite (replace_https_host h Hh).
Qed.

(** How [main] forms [target] out of an accepted argument: the argument is
    a scheme [sch] (possibly empty) followed by a host [h]; the target keeps
    a scheme that is there, gets ["http://"] when there is none, except
    that nothing is added when the host itself begins with ["http"].  In
    each case [strip_protocol] of the target is the host. *)
Lemma validate_target_inr (arg tgt : string) :
  validate_target arg = inr tgt ->
  exists sch h,
    matches scheme_re sch /\ matches host_re h
    /\ (arg = sch +:+ h \/ arg = (sch +:+ h) +:+ nl)
    /\ ((sch = "http://" \/ sch = "https://") /\ tgt = sch +:+ h
        \/ sch = "" /\ startswith "http" h = false /\ tgt = "http://" +:+ h
        \/ sch = "" /\ startswith "http" h = true /\ tgt = h)
    /\ strip_protocol tgt = h.
Proof.
  unfold validate_target. destruct arg as [|a arg]; [done|].
  destruct (match_anchored pattern (String a arg)) as [g|] eqn:Hg; [|done].
  apply match_anchored_spec in Hg as [Hm Harg].
  inversion Hm as [| |? ? sch h Hsch Hh| | | |]; subst.
  pose proof (host_all_chars _ Hh) as Hchars.
  intros Htgt. exists sch, h. do 3 (split; [done|]).
  destruct (scheme_re_cases _ Hsch) as [-> | [-> | ->]].
  - change ("" +:+ h) with h in Htgt.
    destruct (startswith "http" h) eqn:Hp; simplify_eq.
    + split; [by right; right|]. by apply strip_protocol_host.
    + split; [by right; left|]. by apply strip_protocol_http.
  - assert (startswith "http" ("http://" +:+ h) = true) as Hp
      by apply (startswith_app "http" ("://" +:+ h)).
    rewrite Hp in Htgt. simplify_eq.
    split; [left; by auto|]. by apply strip_protocol_http.
  - assert (startswith "http" ("https://" +:+ h) = true) as Hp
      by apply (startswith_app "http" ("s://" +:+ h)).
    rewrite Hp in Htgt. simplify_eq.
    split; [left; by auto|]. by apply strip_protocol_https.
Qed.

(** ** Executions given by a schedule *)

Lemma exec_run (w : World) (sched : list nat) (st0 st st' : pool)
    (tr tr' : list label) :
  run w st0 tr st ->
  exec w sched st = Some (tr', st') ->
  run w st0 (tr ++ tr') st'.
Proof.
  revert tr st tr'. induction sched as [|i sched IH]; intros tr st tr' Hrun; simpl.
  - intros [= <- <-]. by rewrite app_nil_r.
  - destruct (scan_step w i st) as [[l st1]|] eqn:Hstep; [|done].
    destruct (exec w sched st1) as [[tr1 st2]|] eqn:Hexec; [|done].
    intros [= <- <-].
    rewrite (cons_middle l tr tr1), (assoc_L (++)).
    eapply IH; [|done]. econstructor; [done|by exists i].
Qed.

Lemma exec_run_from (w : World) (sched : list nat) (st0 st' : pool)
    (tr : list label) :
  exec w sched st0 = Some (tr, st') -> run w st0 tr st'.
Proof. intros H. apply (exec_run w sched st0 st0 st' [] tr); [constructor|done]. Qed.

(** ** The claims about [main] *)

(** C6 (fails on the code): a matching argument is meant to leave
    validation with an explicit scheme, ["http://"] being prepended when
    none was given.  The test [target.startswith("http")] also holds for a
    host name that merely begins with these letters: the argument
    ["httpbin.org"] is in the language of the pattern, has no scheme, and
    is returned unchanged, without a scheme. *)
Theorem C6_host_starting_with_http_gets_no_scheme :
  matches pattern "httpbin.org"
  /\ validate_target "httpbin.org" = inr "httpbin.org"
  /\ startswith "http://" "httpbin.org" = false
  /\ startswith "https://" "httpbin.org" = false.
Proof.
  split; [apply fullmatch_matches|]; vm_compute; auto.
Qed.

(** When [pattern.match(args.target)] finds no match, [main] prints a
    diagnostic and returns. *)
Lemma main_without_match (a : Args.t) :
  match_anchored pattern (Args.target a) = None ->
  (exists msg, validate_target (Args.target a) = inl msg
               /\ main a = [Print msg])
  /\ modes_run (main a) = [].
Proof.
  intros Hno. unfold main, validate_target. rewrite Hno.
  destruct (Args.target a); split; eauto.
Qed.

(** C7, as the code has it: a target that is not in the language of the
    pattern, and is not a string of that language followed by one line
    feed either, fails validation: [main] prints the diagnostic, that line
    is all it does, and no mode is executed, whatever flags were given. *)
Theorem C7_target_outside_grammar_runs_no_scan (a : Args.t) :
  ~ matches pattern (Args.target a) ->
  (forall g, Args.target a = g +:+ nl -> ~ matches pattern g) ->
  (exists msg, validate_target (Args.target a) = inl msg
               /\ main a = [Print msg])
  /\ modes_run (main a) = [].
Proof.
  intros Hout Hline. apply main_without_match.
  apply match_anchored_none. by split.
Qed.

Lemma C7_witness :
  ~ matches pattern "not a domain"
  /\ main (Args.mk true true true true true "not a domain" None "subdomains.txt")
     = [Print invalid_url_msg].
Proof.
  assert (~ matches pattern "not a domain") as Hout.
  { apply fullmatch_false. vm_compute. reflexivity. }
  split; [exact Hout|].
  destruct (C7_target_outside_grammar_runs_no_scan
              (Args.mk true true true true true "not a domain" None
                 "subdomains.txt")) as [(msg & Hv & Hm) _].
  - exact Hout.
  - intros g Hg. apply (f_equal chop_newline) in Hg.
    rewrite chop_newline_app in Hg. vm_compute in Hg. discriminate Hg.
  - rewrite Hm. vm_compute in Hv. by inversion Hv.
Defined.

(** Counterexample to the rejection of every string outside the language
    of the pattern: a host name followed by a line feed is not in the
    language, yet [$] matches before the final line feed, the argument is
    accepted and the flagged mode runs on the host name. *)
Lemma C7_counterexample :
  ~ matches pattern ("example.com" +:+ nl)
  /\ validate_target ("example.com" +:+ nl) = inr "http://example.com"
  /\ main (Args.mk false false false true false ("example.com" +:+ nl) None
             "subdomains.txt")
     = [Run SubScan "http://example.com"].
Proof.
  split; [apply fullmatch_false|]; vm_compute; auto.
Qed.

Example invalid_target_scheme_only :
  match_anchored pattern "http://" = None
  /\ main (Args.mk false false false true false "http://" None "subdomains.txt")
     = [Print invalid_url_msg].
Proof. split; vm_compute; reflexivity. Qed.

(** C10: at most one mode runs.  For an accepted target it is the first
    mode, in the order basic-info, port-scan, dir-scan, sub-scan,
    tech-scan, whose flag is set, and none when no flag is set. *)
Theorem C10_dispatch_runs_first_flagged_mode (a : Args.t) :
  length (modes_run (main a)) <= 1
  /\ match validate_target (Args.target a) with
     | inr tgt =>
         main a = (fun m => Run m tgt)
                    <$> option_list (head (List.filter (flag a) priority))
     | inl msg => main a = [Print msg]
     end.
Proof.
  unfold main. destruct (validate_target (Args.target a)) as [msg|tgt].
  - split; [simpl; lia|done].
  - unfold dispatch. destruct a as [[] [] [] [] [] ? ? ?]; simpl; split; done || lia.
Qed.

(** ** The claims about the worker pool *)

Lemma requests_of_snoc (tr : list label) (l : label) :
  requests_of (tr ++ [l])
  = requests_of tr ++ match l with LRequest _ r _ => [r] | _ => [] end.
Proof. unfold requests_of. rewrite omap_app. simpl. by destruct l. Qed.

Lemma scan_step_request (w : World) (i : nat) (st st' : pool)
    (j : nat) (r : request) (res : http_result) :
  scan_step w i st = Some (LRequest j r res, st') -> req_timeout r = None.
Proof. intros H. by step_cases H. Qed.

(** C3 (fails on the code): the worker calls [requests.get(url)] without a
    [timeout] argument, so every request of every execution of the
    subdomain scan is made without a time limit. *)
Theorem C3_probe_requests_have_no_timeout (w : World) (n : nat)
    (s : WebScanner) (lines : list string) (tr : list label) (st : pool) :
  run w (start_pool n s lines) tr st ->
  Forall (fun r => req_timeout r = None) (requests_of tr).
Proof.
  induction 1 as [|tr st l st' _ IH [i Hstep]]; [by constructor|].
  rewrite requests_of_snoc. apply Forall_app. split; [done|].
  destruct l; try by constructor.
  constructor; [|by constructor]. by eapply scan_step_request.
Qed.

Lemma C3_witness :
  Forall (fun r => req_timeout r = None)
    [mkRequest "http://www.example.com" None].
Proof.
  apply (C3_probe_requests_have_no_timeout blank_line_world worker_count
           example_scanner blank_line_wordlist
           [LGet 0 "www";
            LRequest 0 (mkRequest "http://www.example.com" None)
              (Raises ConnectionError "Name or service not known")]
           (mkPool example_scanner (mkQueue [""] 2) false
              (AtTaskDone :: replicate 9 AtGet))).
  apply (exec_run_from blank_line_world [0; 0]). vm_compute. reflexivity.
Defined.

(** C1 (fails on the code): [q.task_done()] is reached only when
    [requests.get] returns or raises [ConnectionError].  In the execution
    below thread 0 handles ["www"] and then the blank line; the request for
    the blank line raises, the thread ends without [task_done] and can
    take no further step.  From then on, and in every other execution on
    this wordlist, [q.join()] does not return. *)
Theorem C1_worker_dies_without_task_done :
  (exists tr st,
      exec blank_line_world [0; 0; 0; 0; 0]
        (start_pool worker_count example_scanner blank_line_wordlist)
      = Some (tr, st)
      /\ gets tr = 2 /\ dones tr = 1
      /\ threads st !! 0 = Some Dead
      /\ scan_step blank_line_world 0 st = None)
  /\ (forall tr st,
        run blank_line_world
          (start_pool worker_count example_scanner blank_line_wordlist) tr st ->
        scan_subdomains_return st = None).
Proof.
  split.
  - eexists _, _. split; [vm_compute; reflexivity|]. by vm_compute.
  - intros tr st Hrun. unfold scan_subdomains_return.
    rewrite (crash_blocks_join blank_line_world worker_count example_scanner
               blank_line_wordlist "" tr st); [done| | |done].
    + apply list_elem_of_In. vm_compute. auto.
    + vm_compute. reflexivity.
Qed.

Lemma C1_witness :
  scan_subdomains_return
    (mkPool example_scanner (mkQueue [] 1) false (Dead :: replicate 9 AtGet))
  = None.
Proof.
  destruct C1_worker_dies_without_task_done as [_ Hnever].
  apply (Hnever
           [LGet 0 "www";
            LRequest 0 (mkRequest "http://www.example.com" None)
              (Raises ConnectionError "Name or service not known");
            LTaskDone 0;
            LGet 0 "";
            LRequest 0 (mkRequest "http://.example.com" None)
              (Raises OtherRequestException "URL has an invalid label.")]).
  apply (exec_run_from blank_line_world [0; 0; 0; 0; 0]).
  vm_compute. reflexivity.
Defined.

(** C2: in every execution of the pool, whatever the number of workers and
    whatever the requests do, [q.join()] can return exactly when as many
    [task_done] calls were made as lines were queued; by then each of them
    was dequeued, the queue is empty and every thread is back at
    [q.get()].  Before that, [q.join()] does not return. *)
Theorem C2_join_returns_only_when_drained (w : World) (n : nat)
    (s : WebScanner) (lines : list string) (tr : list label) (st : pool) :
  run w (start_pool n s lines) tr st ->
  dones tr <= gets tr <= length lines
  /\ (join_returns (q st) = true <-> dones tr = length lines)
  /\ (join_returns (q st) = true ->
      gets tr = length lines /\ dones tr = length lines
      /\ items (q st) = [] /\ Forall (eq AtGet) (threads st)).
Proof.
  intros Hrun. pose proof (run_counted _ _ _ _ _ _ Hrun) as Hc.
  split; [destruct Hc; lia|]. split.
  - rewrite join_returns_true. destruct Hc. lia.
  - by apply drained_state.
Qed.

Lemma fixture_exec_run :
  run only_www_world fixture_pool fixture_exec.1 fixture_exec.2.
Proof. apply (exec_run_from only_www_world fixture_schedule). by vm_compute. Qed.

Lemma C2_witness :
  join_returns (q fixture_exec.2) = true
  /\ gets fixture_exec.1 = 3 /\ dones fixture_exec.1 = 3.
Proof.
  destruct (C2_join_returns_only_when_drained only_www_world worker_count
              example_scanner fixture_wordlist fixture_exec.1 fixture_exec.2)
    as (_ & _ & Hdrained).
  - exact fixture_exec_run.
  - split; [vm_compute; reflexivity|].
    destruct Hdrained as (Hg & Hd & _); [vm_compute; reflexivity|].
    split; [exact Hg|exact Hd].
Defined.

(** A step changes [self.results] only by the append of line 142. *)
Lemma scan_step_results (w : World) (i : nat) (st st' : pool) (l : label) :
  scan_step w i st = Some (l, st') ->
  results (self st')
  = results (self st) ++ match l with LAppend _ url => [url] | _ => [] end.
Proof. intros H. step_cases H; by rewrite ?app_nil_r. Qed.

(** C5: for a target accepted by [main], with host [h], each worker probes
    ["http://" + subdomain + "." + h].  When [scan_subdomains] returns, its
    result holds exactly the probe URLs of the wordlist for which
    [requests.get] returned a response, each as often as it is listed, and
    nothing for the others; on the wordlist [www], [mail],
    [doesnotexist12345] with only [www] answering that is the single entry
    ["http://www." + h].  With at least one worker, and no request raising
    anything but [ConnectionError], the scan does return. *)
Theorem C5_subdomain_scan_collects_responding_urls (w : World) (n : nat)
    (arg tgt wl : string) (lines : list string) :
  validate_target arg = inr tgt ->
  exists h,
    (exists sch, matches scheme_re sch /\ matches host_re h
                 /\ (arg = sch +:+ h \/ arg = (sch +:+ h) +:+ nl))
    /\ (forall c, probe_url (init tgt wl) c = "http://" +:+ c +:+ "." +:+ h)
    /\ (forall tr st l,
          run w (start_pool n (init tgt wl) lines) tr st ->
          scan_subdomains_return st = Some l ->
          l ≡ₚ List.filter (responds w)
                 (map (fun line => "http://" +:+ strip line +:+ "." +:+ h) lines))
    /\ (lines = fixture_wordlist ->
        responds w ("http://www." +:+ h) = true ->
        responds w ("http://mail." +:+ h) = false ->
        responds w ("http://doesnotexist12345." +:+ h) = false ->
        forall tr st l,
          run w (start_pool n (init tgt wl) lines) tr st ->
          scan_subdomains_return st = Some l ->
          l = ["http://www." +:+ h])
    /\ (0 < n -> no_crash w (init tgt wl) lines ->
        exists tr st l,
          run w (start_pool n (init tgt wl) lines) tr st
          /\ scan_subdomains_return st = Some l).
Proof.
  intros Hv.
  destruct (validate_target_inr _ _ Hv) as (sch & h & Hsch & Hh & Harg & _ & Hstrip).
  exists h. split; [by eauto|].
  assert (forall c, probe_url (init tgt wl) c = "http://" +:+ c +:+ "." +:+ h)
    as Hurl.
  { intros c. unfold probe_url, init; simpl. by rewrite Hstrip. }
  assert (forall tr st l,
            run w (start_pool n (init tgt wl) lines) tr st ->
            scan_subdomains_return st = Some l ->
            l ≡ₚ List.filter (responds w)
                   (map (fun line => "http://" +:+ strip line +:+ "." +:+ h) lines))
    as Hres.
  { intros tr st l Hrun. unfold scan_subdomains_return.
    destruct (join_returns (q st)) eqn:Hj; [|done]. intros [= <-].
    rewrite (drained_results _ _ _ _ _ _ Hrun Hj), map_map.
    by rewrite (map_ext _ _ (fun line => Hurl (strip line))). }
  split; [done|]. split; [done|]. split.
  - intros -> Hwww Hmail Hdne tr st l Hrun Hret.
    pose proof (Hres tr st l Hrun Hret) as Hperm.
    change (map _ fixture_wordlist)
      with ["http://www." +:+ h; "http://mail." +:+ h;
            "http://doesnotexist12345." +:+ h] in Hperm.
    cbn [List.filter] in Hperm. rewrite Hwww, Hmail, Hdne in Hperm.
    by apply Permutation_singleton_r in Hperm.
  - intros Hn Hsafe.
    destruct (pool_can_finish w n (init tgt wl) lines [] _ Hn Hsafe
                (run_nil _ _)) as (tr & st & Hrun & Hj).
    exists tr, st, (results (self st)). split; [done|].
    unfold scan_subdomains_return. by rewrite Hj.
Qed.

Lemma C5_witness :
  validate_target "example.com" = inr "http://example.com"
  /\ scan_subdomains_return fixture_exec.2 = Some ["http://www.example.com"].
Proof.
  split; [vm_compute; reflexivity|].
  destruct (C5_subdomain_scan_collects_responding_urls only_www_world
              worker_count "example.com" "http://example.com" "subdomains.txt"
              fixture_wordlist)
    as (h & _ & Hurl & _ & Hfix & _); [vm_compute; reflexivity|].
  assert (h = "example.com") as ->.
  { specialize (Hurl ""). vm_compute in Hurl. by inversion Hurl. }
  assert (scan_subdomains_return fixture_exec.2 = Some (results (self fixture_exec.2)))
    as Hret by (vm_compute; reflexivity).
  rewrite Hret. apply f_equal.
  apply (Hfix eq_refl) with (tr := fixture_exec.1) (st := fixture_exec.2);
    try (vm_compute; reflexivity).
  exact fixture_exec_run.
Defined.

(** ** The directory scan *)

Lemma nonempty_true (s : string) : PyUrl.nonempty s = true <-> s <> "".
Proof.
  unfold PyUrl.nonempty. rewrite negb_true_iff. apply String.eqb_neq.
Qed.

Lemma collect_directories_sound (w : World) (tgt : string)
    (anchors : list (option string)) (D D' : gset string) (err : option string) :
  collect_directories w tgt anchors D = (D', err) ->
  forall x, x ∈ D' ->
    x ∈ D \/ exists url, Some url ∈ anchors /\ url <> ""
                         /\ directory_link w tgt url x.
Proof.
  revert D. induction anchors as [|[url|] anchors IH]; intros D; simpl.
  - intros [= <- <-] x Hx. by left.
  - destruct (PyUrl.nonempty url) eqn:Hne.
    + apply nonempty_true in Hne.
      destruct (PyUrl.urljoin _ tgt url) as [full|msg] eqn:Hjoin;
        [|intros [= <- <-] x Hx; by left].
      destruct (PyUrl.urlparse _ full "") as [p|msg] eqn:Hparse;
        [|intros [= <- <-] x Hx; by left].
      destruct (ends_with_char "/" (PyUrl.path p)) eqn:Hend.
      * intros Hc x Hx. destruct (IH _ Hc x Hx) as [Hin|(u & Hu & Hn & Hl)].
        -- apply elem_of_union in Hin as [->%elem_of_singleton|Hin]; [|by left].
           right. exists url. split; [left|]. split; [done|].
           split; [done|by exists p].
        -- right. exists u. split; [by right|done].
      * intros Hc x Hx. destruct (IH _ Hc x Hx) as [Hin|(u & Hu & Hn & Hl)];
          [by left|]. right. exists u. split; [by right|done].
    + intros Hc x Hx. destruct (IH _ Hc x Hx) as [Hin|(u & Hu & Hn & Hl)];
        [by left|]. right. exists u. split; [by right|done].
  - intros Hc x Hx. destruct (IH _ Hc x Hx) as [Hin|(u & Hu & Hn & Hl)];
      [by left|]. right. exists u. split; [by right|done].
Qed.

Lemma collect_directories_complete (w : World) (tgt : string)
    (anchors : list (option string)) (D D' : gset string) :
  collect_directories w tgt anchors D = (D', None) ->
  D ⊆ D'
  /\ forall url x, Some url ∈ anchors -> url <> "" ->
       directory_link w tgt url x -> x ∈ D'.
Proof.
  revert D. induction anchors as [|[url|] anchors IH]; intros D; simpl.
  - intros [= <-]. split; [done|]. intros url x Hin. by apply elem_of_nil in Hin.
  - destruct (PyUrl.nonempty url) eqn:Hne.
    + destruct (PyUrl.urljoin _ tgt url) as [full|msg] eqn:Hjoin; [|done].
      destruct (PyUrl.urlparse _ full "") as [p|msg] eqn:Hparse; [|done].
      destruct (ends_with_char "/" (PyUrl.path p)) eqn:Hend.
      * intros Hc. destruct (IH _ Hc) as [Hsub Hall].
        split; [by etrans; [apply union_subseteq_r|]|].
        intros u x [[= ->]|Hin]%elem_of_cons Hn Hl; [|by eauto].
        destruct Hl as [Hj _]. rewrite Hjoin in Hj. simplify_eq.
        by apply Hsub, elem_of_union_l, elem_of_singleton.
      * intros Hc. destruct (IH _ Hc) as [Hsub Hall]. split; [done|].
        intros u x [[= ->]|Hin]%elem_of_cons Hn Hl; [|by eauto].
        destruct Hl as [Hj (p' & Hp' & He)]. rewrite Hjoin in Hj. simplify_eq.
        rewrite Hparse in Hp'. simplify_eq. congruence.
    + intros Hc. destruct (IH _ Hc) as [Hsub Hall]. split; [done|].
      intros u x [[= ->]|Hin]%elem_of_cons Hn Hl; [|by eauto].
      apply nonempty_true in Hn. congruence.
  - intros Hc. destruct (IH _ Hc) as [Hsub Hall]. split; [done|].
    intros u x [[=]|Hin]%elem_of_cons Hn Hl. by eauto.
Qed.

(** Every call extends [self.results] and returns the extended list. *)
Lemma scan_directories_results (w : World) (s : WebScanner) :
  (exists ext, results (scan_directories w s).1.1 = results s ++ ext)
  /\ (forall l, (scan_directories w s).2 = Return l ->
                l = results (scan_directories w s).1.1).
Proof.
  unfold scan_directories.
  destruct (requests_get w _) as [[msg|] anchors|cls msg].
  - simpl. split; [exists []; by rewrite app_nil_r|]. by intros l [= <-].
  - destruct (collect_directories w (target s) anchors ∅) as [D err]. simpl.
    split; [by eexists|]. by intros l [= <-].
  - destruct (is_request_exception cls); simpl.
    + split; [exists []; by rewrite app_nil_r|]. by intros l [= <-].
    + split; [exists []; by rewrite app_nil_r|]. done.
Qed.

(** C4, as the code has it: the links are joined with the target and kept
    when the path of the joined URL ends with a slash; the origin of the
    joined URL is not looked at.  On a new scanner a directory scan of a
    page returns each such link once, and, unless joining or parsing a link
    raises, all of them.  For the page with the links ["/a/"], ["/b"] and
    ["http://other.example/c/"] fetched from [http://example.com] these are
    [http://example.com/a/] and [http://other.example/c/]. *)
Theorem C4_directory_scan_keeps_slash_links_of_any_origin :
  (forall (w : World) (tgt wl : string) (anchors : list (option string)),
      requests_get w (mkRequest tgt (Some 5)) = Response None anchors ->
      exists l,
        (scan_directories w (init tgt wl)).2 = Return l
        /\ NoDup l
        /\ (forall x, x ∈ l ->
              exists url, Some url ∈ anchors /\ url <> ""
                          /\ directory_link w tgt url x)
        /\ ((collect_directories w tgt anchors ∅).2 = None ->
            forall url x, Some url ∈ anchors -> url <> "" ->
              directory_link w tgt url x -> x ∈ l))
  /\ exists l,
       (scan_directories fixture_page_world example_scanner).2 = Return l
       /\ l ≡ₚ ["http://example.com/a/"; "http://other.example/c/"].
Proof.
  split.
  - intros w tgt wl anchors Hget. unfold scan_directories, init; simpl.
    rewrite Hget.
    destruct (collect_directories w tgt anchors ∅) as [D err] eqn:Hc. simpl.
    eexists. split; [done|]. split; [apply NoDup_elements|]. split.
    + intros x Hx%elem_of_elements.
      destruct (collect_directories_sound _ _ _ _ _ _ Hc x Hx) as [Hin|Hex];
        [by apply not_elem_of_empty in Hin|done].
    + intros -> url x Hin Hne Hl. apply elem_of_elements.
      by eapply collect_directories_complete.
  - eexists. split; [vm_compute; reflexivity|]. apply Permutation_swap.
Qed.

Lemma C4_witness :
  requests_get fixture_page_world (mkRequest "http://example.com" (Some 5))
  = Response None fixture_page
  /\ exists l,
       (scan_directories fixture_page_world example_scanner).2 = Return l
       /\ NoDup l.
Proof.
  split; [reflexivity|].
  destruct C4_directory_scan_keeps_slash_links_of_any_origin as [Hgen _].
  destruct (Hgen fixture_page_world "http://example.com" "subdomains.txt"
              fixture_page eq_refl) as (l & Hl & Hnd & _).
  exists l. split; [exact Hl|exact Hnd].
Defined.

(** Counterexample to same-origin filtering: the scan of that page also
    returns the link to the other origin, so its result is not the single
    link [http://example.com/a/]. *)
Lemma C4_counterexample :
  exists l,
    (scan_directories fixture_page_world example_scanner).2 = Return l
    /\ "http://other.example/c/" ∈ l
    /\ ~ l ≡ₚ ["http://example.com/a/"].
Proof.
  eexists. split; [vm_compute; reflexivity|]. split; [by left|].
  intros Hp. by apply Permutation_length in Hp.
Qed.

(** C8, as the code has it: when the GET raises a [RequestException], or
    [raise_for_status()] raises [HTTPError], the method prints the access
    diagnostic, raises nothing and returns [self.results] as it stood
    before the call, which is the empty list on a scanner that has not
    scanned before. *)
Theorem C8_transport_error_returns_results_unchanged (w : World)
    (s : WebScanner) :
  (exists cls msg,
      requests_get w (mkRequest (target s) (Some 5)) = Raises cls msg
      /\ is_request_exception cls = true)
  \/ (exists msg anchors,
        requests_get w (mkRequest (target s) (Some 5))
        = Response (Some msg) anchors) ->
  (exists msg,
      scan_directories w s
      = (s, [directory_banner (target s); access_error (target s) msg],
         Return (results s)))
  /\ (results s = [] -> (scan_directories w s).2 = Return []).
Proof.
  unfold scan_directories.
  intros [(cls & msg & -> & ->)|(msg & anchors & ->)]; simpl;
    (split; [by eexists|by intros ->]).
Qed.

Lemma C8_witness :
  requests_get down_world (mkRequest "http://example.com" (Some 5))
  = Raises ConnectionError "Connection refused"
  /\ (scan_directories down_world example_scanner).2 = Return [].
Proof.
  split; [reflexivity|].
  apply (C8_transport_error_returns_results_unchanged down_world example_scanner).
  - left. exists ConnectionError, "Connection refused". split; reflexivity.
  - reflexivity.
Defined.

(** Counterexample to the empty result: on a scanner that has scanned
    before, a failing GET makes the method return the earlier results, not
    the empty list. *)
Lemma C8_counterexample :
  requests_get down_world (mkRequest (target scanned_once) (Some 5))
  = Raises ConnectionError "Connection refused"
  /\ is_request_exception ConnectionError = true
  /\ exists l, (scan_directories down_world scanned_once).2 = Return l
               /\ l <> [].
Proof.
  split; [reflexivity|]. split; [reflexivity|].
  eexists. split; [vm_compute; reflexivity|]. done.
Qed.

(** C9: of two directory scans on one scanner, the list returned by the
    first is a prefix of the list returned by the second, so each element
    of the first is in the second; scanning the same page twice reports its
    links twice. *)
Theorem C9_directory_results_accumulate :
  (forall (w1 w2 : World) (s : WebScanner) (l1 l2 : list string),
      (scan_directories w1 s).2 = Return l1 ->
      (scan_directories w2 (scan_directories w1 s).1.1).2 = Return l2 ->
      l1 `prefix_of` l2 /\ forall x, x ∈ l1 -> x ∈ l2)
  /\ exists l,
       (scan_directories fixture_page_world scanned_once).2 = Return l
       /\ ~ NoDup l.
Proof.
  split.
  - intros w1 w2 s l1 l2 H1 H2.
    destruct (scan_directories_results w1 s) as [_ Hr1].
    destruct (scan_directories_results w2 (scan_directories w1 s).1.1)
      as [[ext Hext] Hr2].
    rewrite (Hr1 _ H1), (Hr2 _ H2), Hext.
    split; [by apply prefix_app_r|]. intros x Hx. apply elem_of_app. by left.
  - eexists. split; [vm_compute; reflexivity|].
    intros Hnd. apply NoDup_cons in Hnd as [Hnot _]. apply Hnot.
    right. left.
Qed.

Lemma C9_witness :
  (scan_directories fixture_page_world example_scanner).2
  = Return (results scanned_once)
  /\ results scanned_once
     `prefix_of` results (scan_directories down_world scanned_once).1.1.
Proof.
  split; [vm_compute; reflexivity|].
  destruct C9_directory_results_accumulate as [Hacc _].
  apply (Hacc fixture_page_world down_world example_scanner
           (results scanned_once)
           (results (scan_directories down_world scanned_once).1.1));
    vm_compute; reflexivity.
Defined.

(** * Further properties of the code *)

(** ** The worker pool *)

Lemma dequeued_snoc (tr : list label) (l : label) :
  dequeued (tr ++ [l])
  = dequeued tr ++ match l with LGet _ c => [c] | _ => [] end.
Proof. unfold dequeued. rewrite omap_app. simpl. by destruct l. Qed.

Lemma scan_step_items (w : World) (i : nat) (st st' : pool) (l : label) :
  scan_step w i st = Some (l, st') ->
  items (q st)
  = match l with LGet _ c => [c] | _ => [] end ++ items (q st').
Proof. intros H. by step_cases H. Qed.

(** X1: the queue is consumed in wordlist order, each line once: at any
    point of any execution the subdomains dequeued so far, followed by what
    is still queued, are the stripped lines of the wordlist in file
    order. *)
Theorem X1_candidates_dequeued_once_in_file_order (w : World) (n : nat)
    (s : WebScanner) (lines : list string) (tr : list label) (st : pool) :
  run w (start_pool n s lines) tr st ->
  dequeued tr ++ items (q st) = map strip lines.
Proof.
  induction 1 as [|tr st l st' _ IH [i Hstep]].
  - by rewrite start_pool_queue.
  - rewrite dequeued_snoc, <- (assoc_L (++)).
    by rewrite <- (scan_step_items _ _ _ _ _ Hstep).
Qed.

Lemma X1_witness :
  dequeued fixture_exec.1 ++ items (q fixture_exec.2)
  = ["www"; "mail"; "doesnotexist12345"].
Proof.
  apply (X1_candidates_dequeued_once_in_file_order only_www_world worker_count
           example_scanner fixture_wordlist fixture_exec.1 fixture_exec.2).
  exact fixture_exec_run.
Defined.

Lemma in_critical_after_request (url : string) (res : http_result) :
  in_critical (after_request url res) = 0.
Proof. by destruct res as [? ?|[] ?]. Qed.

Lemma sum_list_with_two {A : Type} (f : A -> nat) (l : list A)
    (i j : nat) (x y : A) :
  l !! i = Some x -> l !! j = Some y -> i <> j ->
  f x + f y <= sum_list_with f l.
Proof.
  revert i j. induction l as [|a l IH]; intros [|i] [|j] Hi Hj Hne;
    simplify_eq/=.
  - pose proof (sum_list_with_lookup_le f _ _ _ Hj). lia.
  - pose proof (sum_list_with_lookup_le f _ _ _ Hi). lia.
  - assert (i <> j) as Hne' by congruence.
    specialize (IH _ _ Hi Hj Hne'). lia.
Qed.

Lemma scan_step_critical (w : World) (i : nat) (st st' : pool) (l : label) :
  scan_step w i st = Some (l, st') ->
  sum_list_with in_critical (threads st) = count_if (list_lock st) ->
  sum_list_with in_critical (threads st') = count_if (list_lock st').
Proof.
  intros H Hinv. step_cases H;
    match goal with
    | Hl : threads _ !! _ = Some ?p |- context [<[_ := ?p']> (threads _)] =>
        pose proof (sum_list_with_insert in_critical _ _ _ p' Hl) as Hs;
        pose proof (sum_list_with_lookup_le in_critical _ _ _ Hl) as Hle;
        simpl in Hs, Hle; rewrite ?in_critical_after_request in Hs
    end;
    try match goal with
    | Hk : list_lock _ = _ |- _ => rewrite Hk in Hinv
    end;
    try (destruct (list_lock st)); simpl in *; lia.
Qed.

Lemma sum_critical_replicate (n : nat) :
  sum_list_with in_critical (replicate n AtGet) = 0.
Proof. induction n as [|n IH]; simpl; lia. Qed.

(** X2: [list_lock] gives mutual exclusion around the append: in every
    reachable state the lock is held exactly when one thread is inside the
    [with] block, and two different threads are never inside it together. *)
Theorem X2_list_lock_mutual_exclusion (w : World) (n : nat)
    (s : WebScanner) (lines : list string) (tr : list label) (st : pool) :
  run w (start_pool n s lines) tr st ->
  sum_list_with in_critical (threads st) = count_if (list_lock st)
  /\ forall i j u v,
       threads st !! i = Some (AtAppend u) ->
       threads st !! j = Some (AtAppend v) -> i = j.
Proof.
  intros Hrun.
  assert (sum_list_with in_critical (threads st) = count_if (list_lock st))
    as Hinv.
  { induction Hrun as [|tr st l st' _ IH [i Hstep]].
    - simpl. by rewrite sum_critical_replicate.
    - by eapply scan_step_critical. }
  split; [done|]. intros i j u v Hi Hj.
  destruct (decide (i = j)) as [|Hne]; [done|].
  pose proof (sum_list_with_two in_critical _ _ _ _ _ Hi Hj Hne) as Hle.
  simpl in Hle. destruct (list_lock st); simpl in Hinv; lia.
Qed.

Lemma X2_witness :
  sum_list_with in_critical (threads fixture_exec.2)
  = count_if (list_lock fixture_exec.2).
Proof.
  apply (X2_list_lock_mutual_exclusion only_www_world worker_count
           example_scanner fixture_wordlist fixture_exec.1 fixture_exec.2).
  exact fixture_exec_run.
Defined.

(** X3: [q.task_done()] never raises [ValueError]: no execution contains a
    call of it that finds the count of unfinished tasks at zero, so no
    worker is ever lost to the queue's own bookkeeping. *)
Theorem X3_task_done_never_raises (w : World) (n : nat)
    (s : WebScanner) (lines : list string) (tr : list label) (st : pool) :
  run w (start_pool n s lines) tr st ->
  forall i, LTaskDoneError i ∉ tr.
Proof.
  induction 1 as [|tr st l st' Hrun IH [j Hstep]]; intros i.
  - apply not_elem_of_nil.
  - intros [Hin|Hin%list_elem_of_singleton]%elem_of_app; [by eapply IH|].
    subst l. destruct (run_counted _ _ _ _ _ _ Hrun) as [I1 I2 I3].
    step_cases Hstep.
    match goal with H : threads st !! _ = Some AtTaskDone |- _ =>
      pose proof (sum_list_with_lookup_le holding _ _ _ H) as Hle end.
    simpl in *. lia.
Qed.

Lemma X3_witness : LTaskDoneError 0 ∉ fixture_exec.1.
Proof.
  apply (X3_task_done_never_raises only_www_world worker_count
           example_scanner fixture_wordlist fixture_exec.1 fixture_exec.2).
  exact fixture_exec_run.
Defined.

(** X4: the threads do no unbounded work: whatever the schedule and the
    network, an execution of the pool has at most five steps for each line
    of the wordlist (get, request, lock, append, task_done). *)
Theorem X4_executions_are_bounded (w : World) (n : nat)
    (s : WebScanner) (lines : list string) (tr : list label) (st : pool) :
  run w (start_pool n s lines) tr st ->
  length tr <= 5 * length lines.
Proof. intros Hrun. pose proof (run_bounded _ _ _ _ _ _ Hrun). lia. Qed.

Lemma X4_witness : length fixture_exec.1 <= 15.
Proof.
  apply (X4_executions_are_bounded only_www_world worker_count
           example_scanner fixture_wordlist fixture_exec.1 fixture_exec.2).
  exact fixture_exec_run.
Defined.

(** X5: one line is enough to hang the scan: if the request for any line
    of the wordlist raises an exception other than [ConnectionError], then
    for every number of workers and every schedule [q.join()] never
    returns, so [scan_subdomains] returns nothing. *)
Theorem X5_one_crashing_line_blocks_the_scan (w : World) (n : nat)
    (s : WebScanner) (lines : list string) (c : string)
    (cls : exn_class) (msg : string) (tr : list label) (st : pool) :
  c ∈ map strip lines ->
  requests_get w (probe_request (probe_url s c)) = Raises cls msg ->
  cls <> ConnectionError ->
  run w (start_pool n s lines) tr st ->
  scan_subdomains_return st = None.
Proof.
  intros Hc Hget Hcls Hrun. unfold scan_subdomains_return.
  rewrite (crash_blocks_join w n s lines c tr st); [done|done| |done].
  unfold crashes. rewrite Hget. by destruct cls.
Qed.

Lemma X5_witness :
  scan_subdomains_return
    (start_pool 3 example_scanner blank_line_wordlist) = None.
Proof.
  apply (X5_one_crashing_line_blocks_the_scan blank_line_world 3
           example_scanner blank_line_wordlist "" OtherRequestException
           "URL has an invalid label." []).
  - apply list_elem_of_In. vm_compute. auto.
  - vm_compute. reflexivity.
  - discriminate.
  - constructor.
Defined.

(** X6: what [self.results] holds is sound at every moment, also while the
    scan is running or hanging: each entry is the probe URL of a line of
    the wordlist whose request returned a response. *)
Theorem X6_partial_results_are_responding_probe_urls (w : World) (n : nat)
    (s : WebScanner) (lines : list string) (tr : list label) (st : pool) :
  run w (start_pool n s lines) tr st ->
  forall u, u ∈ results (self st) ->
    responds w u = true
    /\ exists line, line ∈ lines /\ u = probe_url s (strip line).
Proof.
  intros Hrun u Hu.
  assert (u ∈ List.filter (responds w) (map (probe_url s) (map strip lines)))
    as Hin.
  { rewrite <- (run_outstanding _ _ _ _ _ _ Hrun). unfold outstanding.
    apply elem_of_app. by left. }
  apply list_elem_of_In, filter_In in Hin as [Hin Hr]. split; [done|].
  rewrite map_map in Hin. apply in_map_iff in Hin as (line & <- & Hline).
  exists line. split; [by apply list_elem_of_In|done].
Qed.

Lemma X6_witness : responds only_www_world "http://www.example.com" = true.
Proof.
  apply (X6_partial_results_are_responding_probe_urls only_www_world
           worker_count example_scanner fixture_wordlist
           fixture_exec.1 fixture_exec.2 fixture_exec_run).
  apply list_elem_of_In. vm_compute. auto.
Defined.

(** ** [main]: the accepted targets *)

Lemma validate_target_accepts (g : string) :
  matches pattern g -> startswith "http" g = true -> validate_target g = inr g.
Proof.
  intros Hm Hp.
  assert (match_anchored pattern g = Some g) as Hg.
  { unfold match_anchored. by rewrite (proj2 (fullmatch_matches _ _) Hm). }
  destruct g as [|a g]; [done|]. unfold validate_target. by rewrite Hg, Hp.
Qed.

Lemma scheme_re_http : matches scheme_re "http://".
Proof. apply fullmatch_matches. vm_compute. reflexivity. Qed.

Lemma scheme_re_empty : matches scheme_re "".
Proof. apply fullmatch_matches. vm_compute. reflexivity. Qed.

(** X7: normalization is idempotent: the target that [main] forms out of an
    accepted argument is itself accepted and left unchanged, so feeding the
    normalized target back gives the same target. *)
Theorem X7_normalized_target_is_a_fixed_point (arg tgt : string) :
  validate_target arg = inr tgt -> validate_target tgt = inr tgt.
Proof.
  intros Hv.
  destruct (validate_target_inr _ _ Hv)
    as (sch & h & Hsch & Hh & _ & Hcase & _).
  destruct Hcase as [[Hs ->] | [(-> & Hp & ->) | (-> & Hp & ->)]].
  - apply validate_target_accepts; [by apply m_cat|].
    destruct Hs as [-> | ->].
    + apply (startswith_app "http" ("://" +:+ h)).
    + apply (startswith_app "http" ("s://" +:+ h)).
  - apply validate_target_accepts.
    + apply (m_cat scheme_re host_re "http://" h); [apply scheme_re_http|done].
    + apply (startswith_app "http" ("://" +:+ h)).
  - apply validate_target_accepts; [|done].
    apply (m_cat scheme_re host_re "" h); [apply scheme_re_empty|done].
Qed.

Lemma X7_witness :
  validate_target "www.example.com" = inr "http://www.example.com"
  /\ validate_target "http://www.example.com" = inr "http://www.example.com".
Proof.
  split; [vm_compute; reflexivity|].
  apply (X7_normalized_target_is_a_fixed_point "www.example.com").
  vm_compute. reflexivity.
Defined.

Lemma all_chars_excludes (P : ascii -> bool) (c : ascii) (h : string) :
  P c = false -> PyUrl.all_chars P h = true -> contains_char c h = false.
Proof.
  intros Hc. induction h as [|a h IH]; [done|]. simpl.
  intros [Ha Hh]%andb_true_iff. rewrite (IH Hh), orb_false_r.
  destruct (Ascii.eqb a c) eqn:Heq; [|done].
  apply Ascii.eqb_eq in Heq as ->. congruence.
Qed.

(** X8: an accepted argument is a bare host name, alone or behind
    ["http://"] or ["https://"], possibly followed by one line feed, and the
    target is that host name alone or behind one of the two schemes.  The
    host consists of letters, digits, hyphens and dots only: it has no
    colon, slash, question mark or at sign, so an argument with a port, a
    path, a query or user information is never accepted. *)
Theorem X8_accepted_target_is_scheme_and_host (arg tgt : string) :
  validate_target arg = inr tgt ->
  exists sch h,
    (sch = "" \/ sch = "http://" \/ sch = "https://")
    /\ (arg = sch +:+ h \/ arg = (sch +:+ h) +:+ nl)
    /\ PyUrl.all_chars host_char h = true
    /\ contains_char ":" h = false /\ contains_char "/" h = false
    /\ contains_char "?" h = false /\ contains_char "@" h = false
    /\ (tgt = h \/ tgt = "http://" +:+ h \/ tgt = "https://" +:+ h).
Proof.
  intros Hv.
  destruct (validate_target_inr _ _ Hv)
    as (sch & h & Hsch & Hh & Harg & Hcase & _).
  pose proof (host_all_chars _ Hh) as Hc.
  exists sch, h. split; [by apply scheme_re_cases|]. split; [done|].
  split; [done|].
  do 4 (split; [by apply (all_chars_excludes host_char)|]).
  destruct Hcase as [[[-> | ->] ->] | [(-> & Hp & ->) | (-> & Hp & ->)]]; auto.
Qed.

Lemma X8_witness :
  validate_target "https://example.com" = inr "https://example.com"
  /\ exists sch h,
       (sch = "" \/ sch = "http://" \/ sch = "https://")
       /\ ("https://example.com" = sch +:+ h
           \/ "https://example.com" = (sch +:+ h) +:+ nl)
       /\ contains_char ":" h = false /\ contains_char "/" h = false.
Proof.
  split; [vm_compute; reflexivity|].
  destruct (X8_accepted_target_is_scheme_and_host "https://example.com"
              "https://example.com")
    as (sch & h & Hsch & Harg & _ & H1 & H2 & _); [vm_compute; reflexivity|].
  exists sch, h. split; [exact Hsch|]. split; [exact Harg|].
  split; [exact H1|exact H2].
Defined.

Lemma startswith_http_line (h : string) :
  startswith "http" h = true -> startswith "http" (h +:+ nl) = true.
Proof.
  intros [r ->]%startswith_inv. rewrite append_assoc. apply startswith_app.
Qed.

Lemma host_no_scheme (h : string) :
  PyUrl.all_chars host_char h = true ->
  startswith "http" h = true ->
  forall arg, arg = h \/ arg = h +:+ nl ->
    startswith "http://" arg = false /\ startswith "https://" arg = false.
Proof.
  intros Hc [r ->]%startswith_inv arg Harg.
  assert (forall p, (p = "://" \/ p = "s://") ->
                    startswith ("http" +:+ p) arg = false) as Hno.
  { intros p Hp. destruct (startswith ("http" +:+ p) arg) eqn:Hs; [|done].
    apply startswith_inv in Hs as [t ->].
    assert (r = p +:+ t \/ r +:+ nl = p +:+ t) as Hr.
    { destruct Harg as [Heq | Heq]; rewrite ?append_assoc in Heq;
        apply (inj (String.app "http")) in Heq; auto. }
    rewrite all_chars_app in Hc. apply andb_true_iff in Hc as [_ Hc].
    destruct Hr as [-> | Hr].
    - rewrite all_chars_app in Hc. by destruct Hp as [-> | ->].
    - destruct Hp as [-> | ->].
      + destruct r as [|c r]; [done|]. simpl in Hr. by simplify_eq.
      + destruct r as [|c [|c' r]]; simpl in Hr; try done; by simplify_eq. }
  split; [apply (Hno "://")|apply (Hno "s://")]; auto.
Qed.

(** X9: the scheme is there whenever the argument has one or does not begin
    with the letters [http]: for an accepted argument that begins with
    ["http://"] or ["https://"], or does not begin with ["http"] at all,
    the target begins with ["http://"] or ["https://"]. *)
Theorem X9_scheme_present_unless_host_starts_with_http (arg tgt : string) :
  validate_target arg = inr tgt ->
  startswith "http" arg = false
  \/ startswith "http://" arg = true \/ startswith "https://" arg = true ->
  startswith "http://" tgt = true \/ startswith "https://" tgt = true.
Proof.
  intros Hv Harg.
  destruct (validate_target_inr _ _ Hv)
    as (sch & h & Hsch & Hh & Hform & Hcase & _).
  destruct Hcase as [[[-> | ->] ->] | [(-> & Hp & ->) | (-> & Hp & ->)]].
  - left. apply startswith_app.
  - right. apply startswith_app.
  - left. apply startswith_app.
  - exfalso. change ("" +:+ h) with h in Hform.
    destruct (host_no_scheme h (host_all_chars _ Hh) Hp arg Hform) as [H1 H2].
    destruct Harg as [Hn | [Hy | Hy]]; [|congruence|congruence].
    destruct Hform as [-> | ->]; [congruence|].
    by rewrite (startswith_http_line _ Hp) in Hn.
Qed.

Lemma X9_witness :
  validate_target "example.com" = inr "http://example.com"
  /\ (startswith "http://" "http://example.com" = true
      \/ startswith "https://" "http://example.com" = true).
Proof.
  split; [vm_compute; reflexivity|].
  apply (X9_scheme_present_unless_host_starts_with_http "example.com").
  - vm_compute. reflexivity.
  - left. vm_compute. reflexivity.
Defined.

(** ** [str.strip] and [str.join] *)

Lemma lstrip_nonspace (c : ascii) (s : string) :
  is_space c = false -> lstrip (String c s) = String c s.
Proof. intros Hc. simpl. by rewrite Hc. Qed.

Lemma lstrip_head (s : string) :
  lstrip s = "" \/ exists c t, lstrip s = String c t /\ is_space c = false.
Proof.
  induction s as [|c s IH]; [by left|]. simpl.
  destruct (is_space c) eqn:Hc; [done|]. right. by exists c, s.
Qed.

Lemma rstrip_nonspace (c : ascii) (s : string) :
  is_space c = false -> exists t, rstrip (String c s) = String c t.
Proof.
  intros Hc. simpl. destruct (rstrip s); [rewrite Hc|]; by eexists.
Qed.

Lemma rstrip_idem (s : string) : rstrip (rstrip s) = rstrip s.
Proof.
  induction s as [|c s IH]; [done|]. simpl.
  destruct (rstrip s) as [|c' r] eqn:Hr.
  - destruct (is_space c) eqn:Hc; [done|]. simpl. by rewrite Hc.
  - change (rstrip (String c (String c' r)))
      with (match rstrip (String c' r) with
            | "" => if is_space c then "" else String c ""
            | t => String c t
            end).
    by rewrite IH.
Qed.

Theorem strip_idem (s : string) : strip (strip s) = strip s.
Proof.
  unfold strip. destruct (lstrip_head s) as [-> | (c & t & -> & Hc)]; [done|].
  destruct (rstrip_nonspace c t Hc) as [t' Ht]. rewrite Ht.
  rewrite (lstrip_nonspace c t' Hc), <- Ht. apply rstrip_idem.
Qed.

(** Text that ends with a character that is no white space survives
    [rstrip] whatever follows it. *)
Lemma rstrip_prefix (p s : string) :
  p <> "" -> rstrip p = p -> exists t, rstrip (p +:+ s) = p +:+ t.
Proof.
  induction p as [|c p IH]; [done|]. intros _ Hp.
  destruct p as [|c' p].
  - simpl in Hp. destruct (is_space c) eqn:Hc; [done|].
    apply (rstrip_nonspace c s Hc).
  - assert (rstrip (String c' p) = String c' p) as Hp'.
    { change (rstrip (String c (String c' p)))
        with (match rstrip (String c' p) with
              | "" => if is_space c then "" else String c ""
              | t => String c t
              end) in Hp.
      destruct (rstrip (String c' p)); [by destruct (is_space c)|].
      by simplify_eq. }
    destruct (IH ltac:(done) Hp') as [t Ht].
    exists t.
    change (String c (String c' p) +:+ s) with (String c (String c' p +:+ s)).
    change (rstrip (String c (String c' p +:+ s)))
      with (match rstrip (String c' p +:+ s) with
            | "" => if is_space c then "" else String c ""
            | r => String c r
            end).
    by rewrite Ht.
Qed.

Lemma concat_cons_cons (sep x y : string) (l : list string) :
  String.concat sep (x :: y :: l) = x +:+ sep +:+ String.concat sep (y :: l).
Proof. done. Qed.

Lemma concat_app (sep : string) (l1 l2 : list string) :
  l1 <> [] -> l2 <> [] ->
  String.concat sep (l1 ++ l2)
  = String.concat sep l1 +:+ sep +:+ String.concat sep l2.
Proof.
  intros H1 H2. induction l1 as [|x [|y l1] IH]; [done| |].
  - destruct l2 as [|z l2]; [done|]. by rewrite <- concat_cons_cons.
  - change ((x :: y :: l1) ++ l2) with (x :: (y :: l1) ++ l2).
    change ((y :: l1) ++ l2) with (y :: l1 ++ l2) at 1.
    rewrite concat_cons_cons.
    change (y :: l1 ++ l2) with ((y :: l1) ++ l2).
    rewrite IH by done. rewrite concat_cons_cons.
    by rewrite !append_assoc.
Qed.

(** ** [WebsiteAnalyzer.format_output] *)

Lemma split_commas_cons (s : string) :
  exists piece pieces, WebsiteAnalyzer.split_commas s = piece :: pieces.
Proof.
  destruct s as [|c s]; [by eexists _, _|]. simpl.
  destruct (Ascii.eqb c "," && negb (WebsiteAnalyzer.closes_bracket s));
    [by eexists _, _|].
  destruct (WebsiteAnalyzer.split_commas s); by eexists _, _.
Qed.

(** X10: the split loses nothing: putting the pieces back together with
    commas gives the output of the tool again, so every character of it
    other than the separating commas reaches the report. *)
Theorem X10_split_commas_is_lossless (s : string) :
  String.concat "," (WebsiteAnalyzer.split_commas s) = s.
Proof.
  induction s as [|c s IH]; [done|]. simpl.
  destruct (split_commas_cons s) as (piece & pieces & Hs).
  rewrite Hs in IH |- *.
  destruct (Ascii.eqb c "," && negb (WebsiteAnalyzer.closes_bracket s)) eqn:Hc.
  - apply andb_true_iff in Hc as [->%Ascii.eqb_eq _].
    rewrite concat_cons_cons, IH. done.
  - destruct pieces as [|p' pieces]; simpl in *; by rewrite IH.
Qed.

Lemma closes_bracket_inner (inner rest : string) :
  contains_char "[" inner = false -> contains_char "]" inner = false ->
  WebsiteAnalyzer.closes_bracket (inner +:+ "]" +:+ rest) = true.
Proof.
  induction inner as [|c inner IH]; [done|]. simpl.
  intros [Hc1 H1]%orb_false_iff [Hc2 H2]%orb_false_iff.
  rewrite Hc2, Hc1. by apply IH.
Qed.

Lemma split_commas_inner (inner rest piece : string) (pieces : list string) :
  contains_char "[" inner = false -> contains_char "]" inner = false ->
  WebsiteAnalyzer.split_commas ("]" +:+ rest) = piece :: pieces ->
  WebsiteAnalyzer.split_commas (inner +:+ "]" +:+ rest)
  = (inner +:+ piece) :: pieces.
Proof.
  intros H1 H2 Hrest. induction inner as [|c inner IH]; [done|].
  simpl in H1, H2.
  apply orb_false_iff in H1 as [_ H1]. apply orb_false_iff in H2 as [_ H2].
  change (String c inner +:+ "]" +:+ rest)
    with (String c (inner +:+ "]" +:+ rest)).
  cbn [WebsiteAnalyzer.split_commas].
  rewrite (closes_bracket_inner inner rest H1 H2), andb_false_r.
  by rewrite (IH H1 H2).
Qed.

Lemma split_commas_prefix (pre s piece : string) (pieces : list string) :
  contains_char "," pre = false ->
  WebsiteAnalyzer.split_commas s = piece :: pieces ->
  WebsiteAnalyzer.split_commas (pre +:+ s) = (pre +:+ piece) :: pieces.
Proof.
  intros Hpre Hs. induction pre as [|c pre IH]; [done|].
  simpl in Hpre. apply orb_false_iff in Hpre as [Hc Hpre].
  change (String c pre +:+ s) with (String c (pre +:+ s)).
  cbn [WebsiteAnalyzer.split_commas]. by rewrite Hc, (IH Hpre).
Qed.

(** X11: commas inside brackets do not split: after text without a comma
    (such as a plugin name and its opening bracket), text without brackets
    that runs up to a closing bracket stays in one piece with it, however
    many commas it contains. *)
Theorem X11_commas_inside_brackets_are_kept
    (pre inner rest piece : string) (pieces : list string) :
  contains_char "," pre = false ->
  contains_char "[" inner = false -> contains_char "]" inner = false ->
  WebsiteAnalyzer.split_commas ("]" +:+ rest) = piece :: pieces ->
  WebsiteAnalyzer.split_commas (pre +:+ inner +:+ "]" +:+ rest)
  = (pre +:+ inner +:+ piece) :: pieces.
Proof.
  intros Hpre H1 H2 Hrest. apply split_commas_prefix; [done|].
  by apply split_commas_inner.
Qed.

Lemma X11_witness :
  WebsiteAnalyzer.split_commas "Country[UNITED STATES,US], IP[1.2.3.4]"
  = ["Country[UNITED STATES,US]"; " IP[1.2.3.4]"].
Proof.
  apply (X11_commas_inside_brackets_are_kept
           "Country[" "UNITED STATES,US" ", IP[1.2.3.4]" "]" [" IP[1.2.3.4]"]);
    vm_compute; reflexivity.
Defined.

Lemma split_commas_no_comma (s : string) :
  contains_char "," s = false -> WebsiteAnalyzer.split_commas s = [s].
Proof.
  induction s as [|c s IH]; [done|]. simpl.
  intros [Hc Hs]%orb_false_iff. by rewrite Hc, (IH Hs).
Qed.

(** X12: the report is made of trimmed items: for every output, also the
    empty one that the guard returns early, the result is the pieces of the
    split, each stripped, joined by line feeds; stripping an item again
    changes nothing, and an output without a comma is just stripped. *)
Theorem X12_format_output_joins_stripped_pieces (output : string) :
  WebsiteAnalyzer.format_output output
  = String.concat nl (map strip (WebsiteAnalyzer.split_commas output))
  /\ Forall (fun item => strip item = item)
       (map strip (WebsiteAnalyzer.split_commas output))
  /\ (contains_char "," output = false ->
      WebsiteAnalyzer.format_output output = strip output).
Proof.
  split; [by destruct output|]. split.
  - apply Forall_map, Forall_forall. intros p _. apply strip_idem.
  - intros Hno. unfold WebsiteAnalyzer.format_output.
    rewrite (split_commas_no_comma _ Hno). by destruct output.
Qed.

(** ** [DomainInfo] and the [--basic-info] mode *)

(** X13: the three host-based modes agree on the host: for a target that
    [main] accepted, the name that [get_ip_address] resolves (the target
    without a leading scheme) is the one [strip_protocol] gives to the port
    scan and the subdomain scan. *)
Theorem X13_ip_lookup_uses_the_stripped_host (arg tgt : string) :
  validate_target arg = inr tgt ->
  DomainInfo.sub_scheme tgt = strip_protocol tgt.
Proof.
  intros Hv.
  destruct (validate_target_inr _ _ Hv)
    as (sch & h & Hsch & Hh & _ & Hcase & ->).
  pose proof (host_all_chars _ Hh) as Hc.
  destruct Hcase as [[[-> | ->] ->] | [(-> & Hp & ->) | (-> & Hp & ->)]].
  - unfold DomainInfo.sub_scheme. by rewrite startswith_app.
  - unfold DomainInfo.sub_scheme.
    assert (startswith "http://" ("https://" +:+ h) = false) as ->
      by (vm_compute; reflexivity).
    by rewrite startswith_app.
  - unfold DomainInfo.sub_scheme. by rewrite startswith_app.
  - unfold DomainInfo.sub_scheme.
    destruct (host_no_scheme h Hc Hp h (or_introl eq_refl)) as [-> ->]. done.
Qed.

Lemma X13_witness :
  validate_target "https://www.example.com" = inr "https://www.example.com"
  /\ DomainInfo.sub_scheme "https://www.example.com" = "www.example.com".
Proof.
  split; [vm_compute; reflexivity|].
  rewrite (X13_ip_lookup_uses_the_stripped_host "https://www.example.com"
             "https://www.example.com"); vm_compute; reflexivity.
Defined.

Lemma strip_ip_line (rest : string) :
  exists t, strip ("IP Address:" +:+ rest) = "IP Address:" +:+ t.
Proof.
  unfold strip.
  change (lstrip ("IP Address:" +:+ rest)) with ("IP Address:" +:+ rest).
  by apply rstrip_prefix.
Qed.

Lemma get_ip_address_eq (r : Resolver) (self : DomainInfo.t) :
  DomainInfo.get_ip_address r self
  = DomainInfo.append self
      (DomainInfo.Text ("IP Address:" +:+ ip_text r (DomainInfo.target self))).
Proof.
  unfold DomainInfo.get_ip_address, ip_text.
  by destruct (gethostbyname r _).
Qed.

Lemma whois_lookup_eq (r : Resolver) (self : DomainInfo.t) :
  DomainInfo.whois_lookup r self
  = DomainInfo.append self (whois_item r (DomainInfo.target self)).
Proof.
  unfold whois_item, DomainInfo.whois_lookup.
  cbn [DomainInfo.target DomainInfo.init].
  by destruct (whois_whois r _).
Qed.

Lemma whois_item_lines (r : Resolver) (tgt : string) :
  exists x l, DomainInfo.format_item (whois_item r tgt) = x :: l.
Proof.
  unfold whois_item, DomainInfo.whois_lookup. simpl.
  destruct (whois_whois r tgt); simpl; eauto.
Qed.

Lemma get_domain_info_data (r : Resolver) (self : DomainInfo.t) :
  (DomainInfo.get_domain_info r self).1
  = DomainInfo.mk (DomainInfo.target self)
      (DomainInfo.whois_data self
       ++ [DomainInfo.Text ("IP Address:" +:+ ip_text r (DomainInfo.target self));
           whois_item r (DomainInfo.target self)]).
Proof.
  unfold DomainInfo.get_domain_info. cbn [fst].
  rewrite whois_lookup_eq, get_ip_address_eq. unfold DomainInfo.append.
  cbn [DomainInfo.target DomainInfo.whois_data].
  by rewrite <- (assoc_L (++)).
Qed.

Lemma get_domain_info_report (r : Resolver) (self : DomainInfo.t) :
  (DomainInfo.get_domain_info r self).2
  = DomainInfo.format_output (DomainInfo.get_domain_info r self).1.
Proof. done. Qed.

Lemma format_new_items (r : Resolver) (tgt : string) :
  exists t l,
    flat_map DomainInfo.format_item
      [DomainInfo.Text ("IP Address:" +:+ ip_text r tgt); whois_item r tgt]
    = ("IP Address:" +:+ t) :: l
    /\ l <> [].
Proof.
  destruct (whois_item_lines r tgt) as (x & l & Hl).
  destruct (strip_ip_line (ip_text r tgt)) as [t Ht].
  exists t, (x :: l). cbn [flat_map DomainInfo.format_item].
  by rewrite Ht, Hl, app_nil_r.
Qed.

(** X14: the [--basic-info] mode always prints exactly one thing, the
    report of [get_domain_info], and the report begins with the
    ["IP Address:"] entry whether or not the lookups succeed;
    ["Failed to perform DNS lookup."] is never printed. *)
Theorem X14_basic_info_prints_the_report (r : Resolver) (tgt : string) :
  exists rest,
    basic_info_branch r tgt = ["IP Address:" +:+ rest]
    /\ basic_info_branch r tgt <> ["Failed to perform DNS lookup."].
Proof.
  unfold basic_info_branch, DomainInfo.dns_look_up.
  rewrite get_domain_info_report, get_domain_info_data.
  unfold DomainInfo.format_output.
  cbn [DomainInfo.whois_data DomainInfo.init DomainInfo.target].
  rewrite app_nil_l.
  destruct (format_new_items r tgt) as (t & l & -> & Hl).
  destruct l as [|y l]; [done|].
  rewrite concat_cons_cons, append_assoc.
  eexists. split; [done|]. intros [=].
Qed.

(** X15: [whois_data] is never cleared: a second [get_domain_info] on the
    same object returns the first report, a line feed, and then the report
    that a new object for the same target would give. *)
Theorem X15_domain_reports_accumulate (r1 r2 : Resolver) (tgt : string) :
  let first := DomainInfo.get_domain_info r1 (DomainInfo.init tgt) in
  (DomainInfo.get_domain_info r2 first.1).2
  = first.2 +:+ nl
    +:+ (DomainInfo.get_domain_info r2 (DomainInfo.init tgt)).2.
Proof.
  intros first. unfold first.
  rewrite !get_domain_info_report, !get_domain_info_data.
  unfold DomainInfo.format_output.
  cbn [DomainInfo.whois_data DomainInfo.init DomainInfo.target].
  rewrite !app_nil_l, flat_map_app.
  destruct (format_new_items r1 tgt) as (t1 & l1 & -> & _).
  destruct (format_new_items r2 tgt) as (t2 & l2 & -> & _).
  by rewrite concat_app.
Qed.

(** ** The [--dir-scan] mode *)

(** X16: a failing GET in the [--dir-scan] mode: a [RequestException] is
    reported by the scan itself, which then returns the empty list of the
    new scanner, so [main] adds ["No directories found."]; any other
    exception reaches the handler of [main], which prints it. *)
Theorem X16_dir_scan_mode_reports_a_failing_get (w : World) (a : Args.t)
    (tgt : string) (cls : exn_class) (msg : string) :
  requests_get w (mkRequest tgt (Some 5)) = Raises cls msg ->
  dir_scan_branch w a tgt
  = if is_request_exception cls
    then [directory_banner tgt; access_error tgt msg; "No directories found."]
    else [directory_banner tgt;
          "An error occurred during directory scan: " +:+ msg].
Proof.
  intros Hget. unfold dir_scan_branch, scan_directories, init.
  cbn [target results]. rewrite Hget. by destruct (is_request_exception cls).
Qed.

Lemma X16_witness :
  dir_scan_branch down_world
    (Args.mk false false true false false "example.com" None "subdomains.txt")
    "http://example.com"
  = [directory_banner "http://example.com";
     access_error "http://example.com" "Connection refused";
     "No directories found."].
Proof.
  apply (X16_dir_scan_mode_reports_a_failing_get down_world _
           "http://example.com" ConnectionError "Connection refused").
  reflexivity.
Defined.

Lemma collect_directories_app (w : World) (tgt : string)
    (pre rest : list (option string)) (D : gset string) :
  collect_directories w tgt (pre ++ rest) D
  = match collect_directories w tgt pre D with
    | (D1, None) => collect_directories w tgt rest D1
    | (D1, Some e) => (D1, Some e)
    end.
Proof.
  revert D. induction pre as [|[url|] pre IH]; intros D; simpl.
  - done.
  - destruct (PyUrl.nonempty url); [|by apply IH].
    destruct (PyUrl.urljoin _ tgt url) as [full|msg]; [|done].
    destruct (PyUrl.urlparse _ full "") as [p|msg]; [|done].
    destruct (ends_with_char "/" (PyUrl.path p)); by apply IH.
  - by apply IH.
Qed.

(** X17: a link that cannot be joined with the target ends the loop over
    the links: the directories found before it are returned and the message
    is printed, but the links after it are not looked at, whatever they
    are. *)
Theorem X17_unresolvable_link_ends_the_loop (w : World) (tgt wl : string)
    (pre post : list (option string)) (bad msg : string) (D : gset string) :
  requests_get w (mkRequest tgt (Some 5))
  = Response None (pre ++ Some bad :: post) ->
  collect_directories w tgt pre ∅ = (D, None) ->
  bad <> "" ->
  PyUrl.urljoin (check_bracketed_netloc w) tgt bad = PyUrl.ValueError msg ->
  scan_directories w (init tgt wl)
  = (set_results (init tgt wl) (elements D),
     [directory_banner tgt; "An error occurred: " +:+ msg],
     Return (elements D)).
Proof.
  intros Hget Hpre Hbad Hjoin. unfold scan_directories, init.
  cbn [target results]. rewrite Hget, collect_directories_app, Hpre.
  cbn [collect_directories].
  by rewrite (proj2 (nonempty_true bad) Hbad), Hjoin.
Qed.

Lemma X17_witness :
  scan_directories
    (mkWorld (fun _ => Response None
                         [Some "/a/"; Some "http://[::1"; Some "/b/"])
       (fun _ => None))
    example_scanner
  = (set_results example_scanner ["http://example.com/a/"],
     [directory_banner "http://example.com";
      "An error occurred: Invalid IPv6 URL"],
     Return ["http://example.com/a/"]).
Proof.
  etrans.
  - apply (X17_unresolvable_link_ends_the_loop
             (mkWorld (fun _ => Response None
                                  [Some "/a/"; Some "http://[::1"; Some "/b/"])
                (fun _ => None))
             "http://example.com" "subdomains.txt"
             [Some "/a/"] [Some "/b/"] "http://[::1" "Invalid IPv6 URL"
             {["http://example.com/a/"]}).
    + reflexivity.
    + vm_compute. reflexivity.
    + discriminate.
    + vm_compute. reflexivity.
  - vm_compute. reflexivity.
Defined.

(** ** [WebsiteAnalyzer.get_whatweb_technologies] *)

(** X18: with [check=True] a non-zero exit status never reaches the test
    of [result.returncode]: the method either returns the standard output
    of a run that exited with status 0 and prints nothing, or returns the
    empty string and prints one line, which is never the ["Error: ..."]
    line of the [else] branch. *)
Theorem X18_whatweb_error_branch_is_dead (error_text : Z -> string)
    (p : WebsiteAnalyzer.process) :
  let '(printed, value) :=
    WebsiteAnalyzer.get_whatweb_technologies error_text p in
  (printed = [] /\ exists err, p = WebsiteAnalyzer.Exited 0 value err)
  \/ (value = ""
      /\ exists line, printed = [line] /\ startswith "Error: " line = false).
Proof.
  unfold WebsiteAnalyzer.get_whatweb_technologies,
    WebsiteAnalyzer.subprocess_run_check.
  destruct p as [rc out err|msg|msg].
  - destruct (Z.eqb rc 0) eqn:Hrc.
    + cbn [WebsiteAnalyzer.returncode WebsiteAnalyzer.stdout]. rewrite Hrc.
      apply Z.eqb_eq in Hrc as ->. left. split; [done|by exists err].
    + right. split; [done|]. eexists. split; [done|]. vm_compute. reflexivity.
  - right. split; [done|]. eexists. split; [done|]. vm_compute. reflexivity.
  - right. split; [done|]. eexists. split; [done|]. vm_compute. reflexivity.
Qed.

(** ** The added models on sample inputs *)

Example format_output_sample :
  WebsiteAnalyzer.format_output
    "http://example.com [200 OK] Country[UNITED STATES][US], HTML5, HTTPServer[ECS (dcb/7F84)], IP[93.184.216.34]"
  = "http://example.com [200 OK] Country[UNITED STATES][US]" +:+ nl
    +:+ "HTML5" +:+ nl +:+ "HTTPServer[ECS (dcb/7F84)]" +:+ nl
    +:+ "IP[93.184.216.34]".
Proof. vm_compute. reflexivity. Qed.

Example get_domain_info_sample :
  (DomainInfo.get_domain_info
     (mkResolver (fun _ => Got "93.184.216.34")
        (fun _ => Failed "timed out"))
     (DomainInfo.init "http://example.com")).2
  = "IP Address: 93.184.216.34" +:+ nl
    +:+ "An error occurred during WHOIS lookup: timed out".
Proof. vm_compute. reflexivity. Qed.
